(** * QRBookmark: the synchronisation manager of [sync.js]

    A shallow embedding of [SyncManager] and [LocalChangeManager] and the
    properties of their change-accumulation protocol.

    The source is asynchronous JavaScript.  Every method below is a
    computation in [Async], a resumption monad over the [World] the two
    managers act on: a computation is a tree of synchronous actions ([Do])
    separated by suspension points ([Yield]), one for every [await] of the
    source.  [run] executes a computation alone; [run_with] executes it
    while other calls of the managers are started and resumed at its
    suspension points. *)

From stdpp Require Import base option list gmap strings.
From Stdlib Require Import ZArith Lia.

(** ** Data model *)

(** A live bookmark, as [convertToServerFormat] and [addChange] read it.
    [tags] and [excerpt] may be missing ([undefined]) on the live object. *)
Record Bookmark := mkBookmark {
  id : string;
  url : string;
  title : string;
  tags : option (list string);
  excerpt : option string;
  createdAt : Z;
  updatedAt : Z
}.

(** The object literal returned by [convertToServerFormat]. *)
Record ServerBookmark := mkServerBookmark {
  sb_id : string;
  sb_url : string;
  sb_title : string;
  sb_tags : list string;
  sb_excerpt : string;
  sb_createdAt : Z;
  sb_updatedAt : Z;
  deleted : bool
}.

(** The object literal [{timestamp, change}] built in [addChange]. *)
Record ChangeRecord := mkChange {
  timestamp : Z;
  change : ServerBookmark
}.

(** The result object [{lastSync, lastSyncResult}] of a sync pass. *)
Record SyncResult := mkSyncResult {
  lastSync : Z;
  lastSyncResult : string
}.

(** The two [Error]s thrown by the source: [AlreadySyncing] is the error of
    the guard [if (this.isSyncing)], [NetworkUnavailable] the error thrown
    when [canSync()] is false. *)
Inductive Error := AlreadySyncing | NetworkUnavailable.

(** The argument [bookmarks] of [recordBookmarkChange] and [addChange]:
    a single bookmark or an array of them. *)
Inductive Bookmarks :=
| One (bookmark : Bookmark)
| Many (bookmarkArray : list Bookmark).

(** Calls of [logger], in the order they are made.  The texts of the
    messages are replaced by one constructor per call site. *)
Inductive LogEntry :=
| InfoCleanup
| DebugRecordChange (bookmarks : list Bookmark) (isDeleted : bool)
                    (lastSyncVersion : Z)
| WarnOffline
| InfoSyncChangeStart (count : nat)
| InfoSyncChangeDone
| ErrorSyncChange (error : Error)
| InfoSyncAll
| WarnSyncAllBusy
| InfoSyncAllStart (count : nat)
| InfoSyncAllDone
| ErrorSyncAll (error : Error)
| InfoQueued (count : nat)
| InfoSaved (count : nat)
| InfoMergeQueue (count : nat).

(** Modelled from the spec: [LocalStorageMgr], the durable key-value store,
    is not part of [sync.js].  The spec gives it as [get(key) ->
    value|undefined], [set(key, value) -> void], [remove(keys) -> void] and
    a bookmark repository [getAllBookmarks() -> mapping id->BookmarkEntity],
    with the persisted layout [lastSyncVersion] -> integer timestamp or
    absent and [pendingChanges] -> mapping of bookmark key to change.  Every
    call completes; a failing store is outside this model. *)
Record Storage := mkStorage {
  st_lastSyncVersion : option Z;
  st_pendingChanges : option (gmap string ChangeRecord);
  st_bookmarks : gmap string Bookmark
}.

(** Everything the two managers read or write.
    - [isSyncing]: [SyncManager.isSyncing];
    - [tempQueue]: [LocalChangeManager.tempQueue], a [Map] keyed by URL;
    - [storage]: the contents of [LocalStorageMgr];
    - [onLine]: [navigator.onLine];
    - [readings], [reads]: the wall clock; the [n]-th call of [Date.now()]
      or [new Date().getTime()] returns [readings n];
    - [log]: the calls of [logger] made so far. *)
Record World := mkWorld {
  isSyncing : bool;
  tempQueue : gmap string ChangeRecord;
  storage : Storage;
  onLine : bool;
  readings : nat → Z;
  reads : nat;
  log : list LogEntry
}.

Definition BATCH_SIZE : Z := 50.

Definition set_isSyncing (b : bool) (w : World) : World :=
  mkWorld b (tempQueue w) (storage w) (onLine w) (readings w) (reads w) (log w).

Definition set_tempQueue (q : gmap string ChangeRecord) (w : World) : World :=
  mkWorld (isSyncing w) q (storage w) (onLine w) (readings w) (reads w) (log w).

Definition set_storage (s : Storage) (w : World) : World :=
  mkWorld (isSyncing w) (tempQueue w) s (onLine w) (readings w) (reads w) (log w).

Definition set_reads (n : nat) (w : World) : World :=
  mkWorld (isSyncing w) (tempQueue w) (storage w) (onLine w) (readings w) n (log w).

Definition add_log (e : LogEntry) (w : World) : World :=
  mkWorld (isSyncing w) (tempQueue w) (storage w) (onLine w) (readings w)
          (reads w) (log w ++ [e]).

(** ** Asynchronous computations *)

Inductive Outcome (A : Type) :=
| Return (a : A)
| Throw (e : Error).
Arguments Return {A} a.
Arguments Throw {A} e.

(** [Settle o]: the promise settles with [o].  [Do act k]: run [act]
    synchronously and continue with [k].  [Yield k]: the task is
    suspended; other tasks may run before [k] resumes. *)
Inductive Async (A : Type) : Type :=
| Settle (o : Outcome A)
| Do {X : Type} (act : World → X * World) (k : X → Async A)
| Yield (k : Async A).
Arguments Settle {A} o.
Arguments Do {A X} act k.
Arguments Yield {A} k.

Fixpoint bind {A B} (m : Async A) (f : A → Async B) : Async B :=
  match m with
  | Settle (Return a) => f a
  | Settle (Throw e) => Settle (Throw e)
  | Do act k => Do act (λ x, bind (k x) f)
  | Yield k => Yield (bind k f)
  end.

Definition ret {A} (a : A) : Async A := Settle (Return a).

Declare Scope async_scope.
Delimit Scope async_scope with async.
Bind Scope async_scope with Async.
Notation "x ← y ; z" := (bind y (λ x, z))
  (at level 20, y at level 100, z at level 200, only parsing) : async_scope.
Notation "x ;; z" := (bind x (λ _, z))
  (at level 100, z at level 200, only parsing, right associativity) : async_scope.
Local Open Scope async_scope.

Definition throw {A} (e : Error) : Async A := Settle (Throw e).

(** A synchronous read of the world, and a synchronous update. *)
Definition read {X} (f : World → X) : Async X :=
  Do (λ w, (f w, w)) (λ x, ret x).
Definition modify (f : World → World) : Async unit :=
  Do (λ w, (tt, f w)) (λ x, ret x).

(** A call of a collaborator that acts on the world when it is made. *)
Definition call {X} (act : World → X * World) : Async X :=
  Do act (λ x, ret x).

(** [await m]: [m] runs up to its own first suspension in the same
    synchronous stretch as the code before it; once [m] has settled,
    returned or thrown, the awaiting function is suspended once more
    before it resumes with that outcome. *)
Fixpoint await {A} (m : Async A) : Async A :=
  match m with
  | Settle o => Yield (Settle o)
  | Do act k => Do act (λ x, await (k x))
  | Yield k => Yield (await k)
  end.

(** [try { body } catch (error) { handler }] *)
Fixpoint try_catch {A} (body : Async A) (handler : Error → Async A) : Async A :=
  match body with
  | Settle (Return a) => Settle (Return a)
  | Settle (Throw e) => handler e
  | Do act k => Do act (λ x, try_catch (k x) handler)
  | Yield k => Yield (try_catch k handler)
  end.

(** [try { body } finally { fin }]: [fin] runs on every exit of [body];
    when [fin] itself throws, its error replaces the outcome of [body]. *)
Fixpoint try_finally {A} (body : Async A) (fin : Async unit) : Async A :=
  match body with
  | Settle o => bind fin (λ _, Settle o)
  | Do act k => Do act (λ x, try_finally (k x) fin)
  | Yield k => Yield (try_finally k fin)
  end.

(** [array.map(f)] for an effectful [f], left to right. *)
Fixpoint mapM {A B} (f : A → Async B) (l : list A) : Async (list B) :=
  match l with
  | [] => ret []
  | x :: l' => y ← f x; ys ← mapM f l'; ret (y :: ys)
  end.

(** Execution of one task alone: suspension points are passed through. *)
Fixpoint run {A} (m : Async A) (w : World) : Outcome A * World :=
  match m with
  | Settle o => (o, w)
  | Do act k => let '(x, w') := act w in run (k x) w'
  | Yield k => run k w
  end.

(** One synchronous stretch of a task: up to its next suspension point or
    to its end.  Returns what is left of the task. *)
Fixpoint advance {A} (m : Async A) (w : World) : Async A * World :=
  match m with
  | Settle o => (Settle o, w)
  | Do act k => let '(x, w') := act w in advance (k x) w'
  | Yield k => (k, w)
  end.

(** ** The collaborators of the two managers *)

(** [logger.info], [logger.debug], [logger.warn], [logger.error] *)
Definition logger (e : LogEntry) : Async unit := modify (add_log e).

(** [Date.now()] and [new Date().getTime()] *)
Definition Date_now : Async Z :=
  Do (λ w, (readings w (reads w), set_reads (S (reads w)) w)) (λ x, ret x).

(** [LocalStorageMgr.get('lastSyncVersion')] *)
Definition LocalStorageMgr_get_lastSyncVersion (w : World) : option Z * World :=
  (st_lastSyncVersion (storage w), w).

(** [LocalStorageMgr.set('lastSyncVersion', v)] *)
Definition LocalStorageMgr_set_lastSyncVersion (v : Z) (w : World) : unit * World :=
  (tt, set_storage (mkStorage (Some v) (st_pendingChanges (storage w))
                              (st_bookmarks (storage w))) w).

(** [LocalStorageMgr.remove(['lastSyncVersion'])] *)
Definition LocalStorageMgr_remove_lastSyncVersion (w : World) : unit * World :=
  (tt, set_storage (mkStorage None (st_pendingChanges (storage w))
                              (st_bookmarks (storage w))) w).

(** [LocalStorageMgr.get('pendingChanges')] *)
Definition LocalStorageMgr_get_pendingChanges (w : World)
  : option (gmap string ChangeRecord) * World :=
  (st_pendingChanges (storage w), w).

(** [LocalStorageMgr.set('pendingChanges', changes)] *)
Definition LocalStorageMgr_set_pendingChanges (changes : gmap string ChangeRecord)
    (w : World) : unit * World :=
  (tt, set_storage (mkStorage (st_lastSyncVersion (storage w)) (Some changes)
                              (st_bookmarks (storage w))) w).

(** [LocalStorageMgr.getBookmarks()] *)
Definition LocalStorageMgr_getBookmarks (w : World) : gmap string Bookmark * World :=
  (st_bookmarks (storage w), w).

(** [Array.isArray(bookmarks) ? bookmarks : [bookmarks]] *)
Definition to_array (bookmarks : Bookmarks) : list Bookmark :=
  match bookmarks with
  | One bookmark => [bookmark]
  | Many bookmarkArray => bookmarkArray
  end.

(** [Object.values(o)] *)
Definition Object_values {V} (o : gmap string V) : list V :=
  (map_to_list o).*2.

(** [o[key] = value] on a plain object [o], seen as the map of its own
    properties.  For the key ["__proto__"] that [o] does not own, the
    assignment goes to the setter inherited from [Object.prototype]: it
    replaces the prototype of [o] and creates no own property.  Every
    other assignment creates or overwrites the own property. *)
Definition obj_set (key : string) (value : ChangeRecord)
    (o : gmap string ChangeRecord) : gmap string ChangeRecord :=
  if decide (key = "__proto__" ∧ o !! key = None) then o
  else <[key := value]> o.

(** [changes[url] = change] for every entry, in order. *)
Definition assign_entries (changes : gmap string ChangeRecord)
    (entries : list (string * ChangeRecord)) : gmap string ChangeRecord :=
  foldl (λ acc e, obj_set e.1 e.2 acc) changes entries.

(** [SyncManager.convertToServerFormat(bookmark)].  The method has one
    formal parameter; the second argument [isDeleted] that [addChange]
    passes is not read by it. *)
Definition convertToServerFormat (bookmark : Bookmark) : ServerBookmark :=
  {| sb_id := id bookmark;
     sb_url := url bookmark;
     sb_title := title bookmark;
     sb_tags := match tags bookmark with Some t => t | None => [] end;
     sb_excerpt := match excerpt bookmark with
                   | Some e => if decide (e = "") then "" else e
                   | None => ""
                   end;
     sb_createdAt := createdAt bookmark;
     sb_updatedAt := updatedAt bookmark;
     deleted := false |}.

(** ** class LocalChangeManager *)
Module LocalChangeManager.

(** [getPendingChanges()]: [await LocalStorageMgr.get(...) || {}] *)
Definition getPendingChanges : Async (gmap string ChangeRecord) :=
  changes ← await (call LocalStorageMgr_get_pendingChanges);
  ret (match changes with Some c => c | None => ∅ end).

(** [clearChanges()] *)
Definition clearChanges : Async unit :=
  await (call (LocalStorageMgr_set_pendingChanges ∅)).

(** [cleanup()] *)
Definition cleanup : Async unit :=
  modify (set_tempQueue ∅);;
  await clearChanges.

(** [this.tempQueue.set(url, change)]: [tempQueue] is a [Map], every key
    is stored. *)
Definition tempQueue_set (e : string * ChangeRecord) : Async unit :=
  modify (λ w, set_tempQueue (<[e.1 := e.2]> (tempQueue w)) w).

(** [array.forEach(f)] *)
Fixpoint forEach {A} (l : list A) (f : A → Async unit) : Async unit :=
  match l with
  | [] => ret tt
  | x :: l' => f x;; forEach l' f
  end.

(** [addChange(bookmarks, isDeleted)] *)
Definition addChange (bookmarks : Bookmarks) (isDeleted : bool) : Async unit :=
  let bookmarkArray := to_array bookmarks in
  if Nat.eqb (length bookmarkArray) 0 then ret tt else
  changeEntries ← mapM (λ bookmark,
      now ← Date_now;
      ret (url bookmark, mkChange now (convertToServerFormat bookmark)))
    bookmarkArray;
  syncing ← read isSyncing;
  if syncing then
    forEach changeEntries tempQueue_set;;
    logger (InfoQueued (length bookmarkArray))
  else
    changes ← await getPendingChanges;
    await (call (LocalStorageMgr_set_pendingChanges
                   (assign_entries changes changeEntries)));;
    logger (InfoSaved (length bookmarkArray)).

(** [removeChange(url)] *)
Definition removeChange (url : string) : Async unit :=
  changes ← await getPendingChanges;
  await (call (LocalStorageMgr_set_pendingChanges (delete url changes))).

(** [mergeTempQueueToStorage()].  The loop over [tempQueue.entries()]
    fills a fresh plain object; the keys of a [Map] being distinct, the
    order of the entries does not matter. *)
Definition mergeTempQueueToStorage : Async unit :=
  queue ← read tempQueue;
  if Nat.ltb 0 (size queue) then
    logger (InfoMergeQueue (size queue));;
    await (call (LocalStorageMgr_set_pendingChanges
                   (assign_entries ∅ (map_to_list queue))));;
    modify (set_tempQueue ∅)
  else ret tt.

(** [getChangeCount()] *)
Definition getChangeCount : Async nat :=
  changes ← await getPendingChanges;
  ret (size changes).

End LocalChangeManager.

(** ** class SyncManager *)
Module SyncManager.

(** [getSyncVersion()]: [await LocalStorageMgr.get(...) || 0] *)
Definition getSyncVersion : Async Z :=
  v ← await (call LocalStorageMgr_get_lastSyncVersion);
  ret (match v with
       | Some v => if decide (v = 0%Z) then 0%Z else v
       | None => 0%Z
       end).

(** [cleanup()] *)
Definition cleanup : Async unit :=
  logger InfoCleanup;;
  await LocalChangeManager.cleanup;;
  modify (set_isSyncing false).

(** [resetSyncCache()] *)
Definition resetSyncCache : Async unit :=
  await (call LocalStorageMgr_remove_lastSyncVersion).

(** [recordBookmarkChange(bookmarks, isDeleted)] *)
Definition recordBookmarkChange (bookmarks : Bookmarks) (isDeleted : bool)
  : Async unit :=
  let bookmarkArray := to_array bookmarks in
  lastSyncVersion ← await getSyncVersion;
  logger (DebugRecordChange bookmarkArray isDeleted lastSyncVersion);;
  if decide (lastSyncVersion ≠ 0%Z) then
    await (LocalChangeManager.addChange (Many bookmarkArray) isDeleted)
  else ret tt.

(** [canSync()] *)
Definition canSync : Async bool :=
  online ← read onLine;
  if negb online then ret false else ret true.

(** The [try] block of [syncChange()]. *)
Definition syncChange_try : Async SyncResult :=
  ok ← await canSync;
  if negb ok then
    logger WarnOffline;;
    throw NetworkUnavailable
  else
    lastSync ← Date_now;
    let result := mkSyncResult lastSync "success" in
    pendingChanges ← await LocalChangeManager.getPendingChanges;
    let changes := change <$> Object_values pendingChanges in
    logger (InfoSyncChangeStart (length changes));;
    lastSyncVersion ← await getSyncVersion;
    now ← Date_now;
    await (call (LocalStorageMgr_set_lastSyncVersion now));;
    await LocalChangeManager.clearChanges;;
    logger InfoSyncChangeDone;;
    ret result.

(** The [finally] block of [syncChange()]. *)
Definition syncChange_finally : Async unit :=
  await LocalChangeManager.mergeTempQueueToStorage;;
  modify (set_isSyncing false).

(** [syncChange()] *)
Definition syncChange : Async SyncResult :=
  syncing ← read isSyncing;
  if syncing then throw AlreadySyncing else
  modify (set_isSyncing true);;
  try_finally
    (try_catch syncChange_try
       (λ error, logger (ErrorSyncChange error);; throw error))
    syncChange_finally.

(** The [try] block of [syncAllLocalBookmarks()]. *)
Definition syncAllLocalBookmarks_try : Async SyncResult :=
  ok ← await canSync;
  if negb ok then throw NetworkUnavailable else
  lastSync ← Date_now;
  let result := mkSyncResult lastSync "success" in
  localBookmarks ← await (call LocalStorageMgr_getBookmarks);
  let changes := convertToServerFormat <$> Object_values localBookmarks in
  logger (InfoSyncAllStart (length changes));;
  lastSyncVersion ← await getSyncVersion;
  now ← Date_now;
  await (call (LocalStorageMgr_set_lastSyncVersion now));;
  logger InfoSyncAllDone;;
  ret result.

(** The [finally] block of [syncAllLocalBookmarks()]. *)
Definition syncAllLocalBookmarks_finally : Async unit :=
  modify (set_isSyncing false).

(** [syncAllLocalBookmarks()] *)
Definition syncAllLocalBookmarks : Async SyncResult :=
  logger InfoSyncAll;;
  syncing ← read isSyncing;
  if syncing then
    logger WarnSyncAllBusy;;
    throw AlreadySyncing
  else
    modify (set_isSyncing true);;
    try_finally
      (try_catch syncAllLocalBookmarks_try
         (λ error, logger (ErrorSyncAll error);; throw error))
      syncAllLocalBookmarks_finally.

(** [startSync()] *)
Definition startSync : Async SyncResult :=
  lastSyncVersion ← await getSyncVersion;
  if decide (lastSyncVersion = 0%Z) then await syncAllLocalBookmarks
  else await syncChange.

End SyncManager.

(** ** Other tasks *)

(** A call of a public method of the two managers, made by the
    application. *)
Inductive Call :=
| CallRecordBookmarkChange (bookmarks : Bookmarks) (isDeleted : bool)
| CallAddChange (bookmarks : Bookmarks) (isDeleted : bool)
| CallRemoveChange (url : string)
| CallClearChanges
| CallMergeTempQueueToStorage
| CallCleanup
| CallResetSyncCache
| CallStartSync
| CallSyncChange
| CallSyncAllLocalBookmarks.

(** A task whose result nobody reads. *)
Definition forget {A} (m : Async A) : Async unit := bind m (λ _, ret tt).

Definition task_of (c : Call) : Async unit :=
  match c with
  | CallRecordBookmarkChange bookmarks isDeleted =>
      SyncManager.recordBookmarkChange bookmarks isDeleted
  | CallAddChange bookmarks isDeleted =>
      LocalChangeManager.addChange bookmarks isDeleted
  | CallRemoveChange url => LocalChangeManager.removeChange url
  | CallClearChanges => LocalChangeManager.clearChanges
  | CallMergeTempQueueToStorage => LocalChangeManager.mergeTempQueueToStorage
  | CallCleanup => SyncManager.cleanup
  | CallResetSyncCache => SyncManager.resetSyncCache
  | CallStartSync => forget SyncManager.startSync
  | CallSyncChange => forget SyncManager.syncChange
  | CallSyncAllLocalBookmarks => forget SyncManager.syncAllLocalBookmarks
  end.

(** What happens while a task is suspended: the application makes a call,
    which runs up to its first suspension point and joins the pool of
    suspended tasks, or the [i]-th task of the pool runs its next
    synchronous stretch.  A task that has ended stays in the pool as a
    settled one. *)
Inductive Action :=
| Spawn (c : Call)
| Resume (i : nat).

Definition perform (a : Action) (s : World * list (Async unit))
  : World * list (Async unit) :=
  match a with
  | Spawn c => let '(t, w') := advance (task_of c) s.1 in (w', s.2 ++ [t])
  | Resume i =>
      match s.2 !! i with
      | Some t => let '(t', w') := advance t s.1 in (w', <[i := t']> s.2)
      | None => s
      end
  end.

Definition perform_all (acts : list Action) (s : World * list (Async unit))
  : World * list (Async unit) :=
  foldl (λ s a, perform a s) s acts.

(** The actions that take place at the next suspension point. *)
Definition next_batch (sched : list (list Action)) : list Action :=
  match sched with
  | [] => []
  | acts :: _ => acts
  end.

(** [run_with sched m s]: execute [m] from the world and the pool of
    suspended tasks [s]; at its [n]-th suspension point the actions of the
    [n]-th batch of [sched] take place before [m] resumes.  Returns the
    outcome, the final world and pool, and the batches not consumed. *)
Fixpoint run_with {A} (sched : list (list Action)) (m : Async A)
    (s : World * list (Async unit))
  : Outcome A * (World * list (Async unit)) * list (list Action) :=
  match m with
  | Settle o => (o, s, sched)
  | Do act k => let '(x, w') := act s.1 in run_with sched (k x) (w', s.2)
  | Yield k => run_with (tail sched) k (perform_all (next_batch sched) s)
  end.

(** ** What the managers observe of the store *)

(** The persisted SyncVersion as [getSyncVersion()] returns it. *)
Definition syncVersion (w : World) : Z :=
  match st_lastSyncVersion (storage w) with
  | Some v => if decide (v = 0%Z) then 0%Z else v
  | None => 0%Z
  end.

(** The durable PendingChangeSet as [getPendingChanges()] returns it. *)
Definition pendingChanges (w : World) : gmap string ChangeRecord :=
  match st_pendingChanges (storage w) with
  | Some c => c
  | None => ∅
  end.

(** ** Vocabulary of the statements *)

(** The input of a recording call as the sequence of bookmarks it stands
    for: a single bookmark is a sequence of one. *)
Definition as_sequence (bookmarks : Bookmarks) : list Bookmark :=
  match bookmarks with
  | One b => b :: nil
  | Many bs => bs
  end.

(** The entries a recording call builds for a sequence of bookmarks when
    the clock has been read [n] times: one per bookmark, in order, each
    with its own reading of the clock. *)
Fixpoint changeEntries (r : nat → Z) (n : nat) (bookmarkArray : list Bookmark)
  : list (string * ChangeRecord) :=
  match bookmarkArray with
  | [] => []
  | bookmark :: rest =>
      (url bookmark, mkChange (r n) (convertToServerFormat bookmark))
        :: changeEntries r (S n) rest
  end.

(** The last entry of [entries] written under [key], if any. *)
Definition last_entry (key : string) (entries : list (string * ChangeRecord))
  : option ChangeRecord :=
  snd <$> last (filter (λ e, e.1 = key) entries).

(** Keyed insert-or-overwrite of every entry, in order, into a [Map]. *)
Definition set_entries (queue : gmap string ChangeRecord)
    (entries : list (string * ChangeRecord)) : gmap string ChangeRecord :=
  foldl (λ acc e, <[e.1 := e.2]> acc) queue entries.

(** The keys under which an assignment to the plain object [o] stores
    something: all but a ["__proto__"] that [o] does not own. *)
Definition storable (o : gmap string ChangeRecord) (key : string) : Prop :=
  key ≠ "__proto__" ∨ is_Some (o !! key).

#[export] Instance storable_dec o key : Decision (storable o key).
Proof. unfold storable. apply _. Defined.

(** A sequence of [addChange] calls, each one completed before the next
    is made, with no other task running. *)
Definition record_all (calls : list (Bookmarks * bool)) (w : World) : World :=
  foldl (λ w c, (run (LocalChangeManager.addChange c.1 c.2) w).2) w calls.

(** The bookmarks a sequence of calls mentions, in program order. *)
Definition mentioned (calls : list (Bookmarks * bool)) : list Bookmark :=
  concat ((λ c, as_sequence c.1) <$> calls).

(** ** Tasks that only record mutations *)

(** What a recording task leaves alone: the flag, the connectivity, the
    clock's readings, the persisted SyncVersion and the bookmarks. *)
Definition keeps_sync_state (w w' : World) : Prop :=
  isSyncing w' = isSyncing w
  ∧ onLine w' = onLine w
  ∧ readings w' = readings w
  ∧ st_lastSyncVersion (storage w') = st_lastSyncVersion (storage w)
  ∧ st_bookmarks (storage w') = st_bookmarks (storage w).

(** A task every step of which keeps the sync state. *)
Inductive recording {A : Type} : Async A → Prop :=
| recording_Settle o : recording (Settle o)
| recording_Do {X : Type} (act : World → X * World) k :
    (∀ w, keeps_sync_state w (act w).2) →
    (∀ x, recording (k x)) →
    recording (Do act k)
| recording_Yield k : recording k → recording (Yield k).

(** The calls by which the application reports a mutation. *)
Definition mutation_call (c : Call) : Prop :=
  match c with
  | CallRecordBookmarkChange _ _ | CallAddChange _ _ => True
  | _ => False
  end.

Definition mutation_action (a : Action) : Prop :=
  match a with
  | Spawn c => mutation_call c
  | Resume _ => True
  end.

(** A schedule in which the application only reports mutations, and a pool
    of suspended tasks that only record them. *)
Definition mutation_schedule (sched : list (list Action)) : Prop :=
  Forall (Forall mutation_action) sched.

Definition recording_pool (pool : list (Async unit)) : Prop :=
  Forall recording pool.

(** [holds_after m Q w]: whatever recording tasks do at the suspension
    points of [m], started in [w], [m] ends with an outcome and in a world
    that satisfy [Q]. *)
Fixpoint holds_after {A} (m : Async A) (Q : Outcome A → World → Prop)
    (w : World) : Prop :=
  match m with
  | Settle o => Q o w
  | Do act k => holds_after (k (act w).1) Q (act w).2
  | Yield k => ∀ w', keeps_sync_state w w' → holds_after k Q w'
  end.

(** How a pass entered in [w] ends, with outcome [o] and in world [w'],
    when only recording tasks run meanwhile: the flag is released, the
    bookmarks are not written, and the pass succeeds exactly when the
    network was reachable at entry; only then is the persisted SyncVersion
    replaced, by a reading of the clock. *)
Definition pass_exit (w : World) (o : Outcome SyncResult) (w' : World) : Prop :=
  isSyncing w' = false
  ∧ onLine w' = onLine w
  ∧ readings w' = readings w
  ∧ st_bookmarks (storage w') = st_bookmarks (storage w)
  ∧ if onLine w
    then ∃ v v', o = Return (mkSyncResult (readings w v) "success")
                 ∧ st_lastSyncVersion (storage w') = Some (readings w v')
    else o = Throw NetworkUnavailable
         ∧ st_lastSyncVersion (storage w') = st_lastSyncVersion (storage w).

(** Splits every [keeps_sync_state] hypothesis into its equations. *)
Ltac keeps_facts :=
  repeat match goal with
  | H : keeps_sync_state _ _ |- _ =>
      destruct H as (? & ? & ? & ? & ?)
  end;
  simpl in *.

(** ** Sample data *)

Definition bookmark_a : Bookmark :=
  mkBookmark "1" "https://example.com" "Example" None None 10 10.

Definition bookmark_a' : Bookmark :=
  mkBookmark "1" "https://example.com" "Example (renamed)"
             (Some ["docs"]) (Some "an excerpt") 10 20.

Definition bookmark_b : Bookmark :=
  mkBookmark "2" "https://rocq-prover.org" "Rocq" (Some []) (Some "") 11 11.

(** A bookmark whose URL is the string ["__proto__"]. *)
Definition bookmark_p : Bookmark :=
  mkBookmark "3" "__proto__" "Prototype" None None 12 12.

Definition wall_clock (n : nat) : Z := 1700000000000 + Z.of_nat n.

(** A client that has synced before and has nothing pending. *)
Definition synced_world : World :=
  mkWorld false ∅
          (mkStorage (Some 1690000000000%Z) None
                     {[ "1" := bookmark_a; "2" := bookmark_b ]})
          true wall_clock 0 [].

(** A client that has never synced. *)
Definition fresh_world : World :=
  mkWorld false ∅
          (mkStorage None None {[ "1" := bookmark_a; "2" := bookmark_b ]})
          true wall_clock 0 [].

(** ** Laws of execution *)

Section Execution.
Context {A B : Type}.

Lemma run_with_bind (m : Async A) (f : A → Async B) sched s :
  run_with sched (bind m f) s =
    match run_with sched m s with
    | (Return a, s', sched') => run_with sched' (f a) s'
    | (Throw e, s', sched') => (Throw e, s', sched')
    end.
Proof.
  revert sched s.
  induction m as [[a|e]|X act k IH|k IH]; intros sched s; simpl.
  - done.
  - done.
  - destruct (act s.1) as [x w']. apply IH.
  - apply IH.
Qed.

Lemma run_bind (m : Async A) (f : A → Async B) w :
  run (bind m f) w =
    match run m w with
    | (Return a, w') => run (f a) w'
    | (Throw e, w') => (Throw e, w')
    end.
Proof.
  revert w.
  induction m as [[a|e]|X act k IH|k IH]; intros w; simpl.
  - done.
  - done.
  - destruct (act w) as [x w']. apply IH.
  - apply IH.
Qed.

Lemma run_with_nil (m : Async A) w pool :
  run_with [] m (w, pool) = ((run m w).1, ((run m w).2, pool), []).
Proof.
  revert w.
  induction m as [o|X act k IH|k IH]; intros w; simpl.
  - done.
  - destruct (act w) as [x w']. apply IH.
  - apply IH.
Qed.

Lemma run_with_await (m : Async A) sched s :
  run_with sched (await m) s =
    match run_with sched m s with
    | (o, s', sched') => (o, perform_all (next_batch sched') s', tail sched')
    end.
Proof.
  revert sched s.
  induction m as [o|X act k IH|k IH]; intros sched s; simpl.
  - done.
  - destruct (act s.1) as [x w']. apply IH.
  - apply IH.
Qed.

Lemma run_await (m : Async A) w : run (await m) w = run m w.
Proof.
  revert w. induction m as [o|X act k IH|k IH]; intros w; simpl.
  - done.
  - destruct (act w) as [x w']. apply IH.
  - apply IH.
Qed.

Lemma run_with_try_catch (m : Async A) (h : Error → Async A) sched s :
  run_with sched (try_catch m h) s =
    match run_with sched m s with
    | (Return a, s', sched') => (Return a, s', sched')
    | (Throw e, s', sched') => run_with sched' (h e) s'
    end.
Proof.
  revert sched s.
  induction m as [[a|e]|X act k IH|k IH]; intros sched s; simpl.
  - done.
  - done.
  - destruct (act s.1) as [x w']. apply IH.
  - apply IH.
Qed.

Lemma run_try_catch (m : Async A) (h : Error → Async A) w :
  run (try_catch m h) w =
    match run m w with
    | (Return a, w') => (Return a, w')
    | (Throw e, w') => run (h e) w'
    end.
Proof.
  revert w.
  induction m as [[a|e]|X act k IH|k IH]; intros w; simpl.
  - done.
  - done.
  - destruct (act w) as [x w']. apply IH.
  - apply IH.
Qed.

End Execution.

(** On every exit of the body the [finally] block runs, from the world and
    with the schedule the body left. *)
Lemma run_with_try_finally {A} (m : Async A) (fin : Async unit) sched s :
  run_with sched (try_finally m fin) s =
    match run_with sched m s with
    | (o, s', sched') =>
        match run_with sched' fin s' with
        | (Return _, s'', sched'') => (o, s'', sched'')
        | (Throw e, s'', sched'') => (Throw e, s'', sched'')
        end
    end.
Proof.
  revert sched s.
  induction m as [o|X act k IH|k IH]; intros sched s; simpl.
  - rewrite run_with_bind. by destruct (run_with sched fin s) as [[[[]|e] s'] sched'].
  - destruct (act s.1) as [x w']. apply IH.
  - apply IH.
Qed.

Lemma run_try_finally {A} (m : Async A) (fin : Async unit) w :
  run (try_finally m fin) w =
    match run m w with
    | (o, w') =>
        match run fin w' with
        | (Return _, w'') => (o, w'')
        | (Throw e, w'') => (Throw e, w'')
        end
    end.
Proof.
  revert w.
  induction m as [o|X act k IH|k IH]; intros w; simpl.
  - rewrite run_bind. by destruct (run fin w) as [[[]|e] w'].
  - destruct (act w) as [x w']. apply IH.
  - apply IH.
Qed.

Lemma run_of_run_with {A} (m : Async A) w pool o s' sched :
  run_with [] m (w, pool) = (o, s', sched) → run m w = (o, s'.1).
Proof. rewrite run_with_nil. intros [= <- <- _]. by destruct (run m w). Qed.

(** Execution of the primitive steps. *)
Lemma run_with_ret {A} (a : A) sched s :
  run_with sched (ret a) s = (Return a, s, sched).
Proof. done. Qed.

Lemma run_with_throw {A} e sched s :
  run_with sched (throw (A:=A) e) s = (Throw e, s, sched).
Proof. done. Qed.

Lemma run_with_read {X} (f : World → X) sched w pool :
  run_with sched (read f) (w, pool) = (Return (f w), (w, pool), sched).
Proof. done. Qed.

Lemma run_with_modify f sched w pool :
  run_with sched (modify f) (w, pool) = (Return tt, (f w, pool), sched).
Proof. done. Qed.

Lemma run_with_logger e sched w pool :
  run_with sched (logger e) (w, pool) = (Return tt, (add_log e w, pool), sched).
Proof. done. Qed.

Lemma run_with_Date_now sched w pool :
  run_with sched Date_now (w, pool)
  = (Return (readings w (reads w)), (set_reads (S (reads w)) w, pool), sched).
Proof. done. Qed.

Lemma run_with_call {X} (act : World → X * World) sched w pool :
  run_with sched (call act) (w, pool)
  = (Return (act w).1, ((act w).2, pool), sched).
Proof. simpl. by destruct (act w). Qed.

Lemma run_with_canSync sched w pool :
  run_with sched SyncManager.canSync (w, pool)
  = (Return (onLine w), (w, pool), sched).
Proof. unfold SyncManager.canSync. simpl. by destruct (onLine w). Qed.

Lemma run_with_getSyncVersion sched w pool :
  run_with sched SyncManager.getSyncVersion (w, pool)
  = (Return (syncVersion w), perform_all (next_batch sched) (w, pool), tail sched).
Proof. done. Qed.

Lemma run_with_getPendingChanges sched w pool :
  run_with sched LocalChangeManager.getPendingChanges (w, pool)
  = (Return (pendingChanges w), perform_all (next_batch sched) (w, pool),
     tail sched).
Proof. done. Qed.

Lemma run_with_clearChanges sched w pool :
  run_with sched LocalChangeManager.clearChanges (w, pool)
  = (Return tt,
     perform_all (next_batch sched)
       ((LocalStorageMgr_set_pendingChanges ∅ w).2, pool),
     tail sched).
Proof. done. Qed.

(** ** The ledger: what one call of [addChange] does *)

Lemma run_with_changeEntries sched (l : list Bookmark) w pool :
  run_with sched
    (mapM (λ bookmark,
        now ← Date_now;
        ret (url bookmark, mkChange now (convertToServerFormat bookmark))) l)
    (w, pool)
  = (Return (changeEntries (readings w) (reads w) l),
     (set_reads (reads w + length l) w, pool), sched).
Proof.
  revert w. induction l as [|b l IH]; intros w.
  - destruct w. simpl. unfold set_reads. simpl. by rewrite Nat.add_0_r.
  - simpl. rewrite run_with_bind, IH. destruct w. simpl.
    unfold set_reads. simpl. by rewrite Nat.add_succ_r.
Qed.

Lemma run_with_forEach_tempQueue_set sched entries w pool :
  run_with sched
    (LocalChangeManager.forEach entries LocalChangeManager.tempQueue_set)
    (w, pool)
  = (Return tt, (set_tempQueue (set_entries (tempQueue w) entries) w, pool),
     sched).
Proof.
  revert w. induction entries as [|e entries IH]; intros w.
  - by destruct w.
  - simpl. rewrite IH. by destruct w.
Qed.

Lemma addChange_empty sched bookmarks isDeleted s :
  to_array bookmarks = [] →
  run_with sched (LocalChangeManager.addChange bookmarks isDeleted) s
  = (Return tt, s, sched).
Proof. intros E. unfold LocalChangeManager.addChange. by rewrite E. Qed.

Lemma addChange_syncing sched bookmarks isDeleted w pool :
  isSyncing w = true →
  to_array bookmarks ≠ [] →
  run_with sched (LocalChangeManager.addChange bookmarks isDeleted) (w, pool)
  = (Return tt,
     (add_log (InfoQueued (length (to_array bookmarks)))
        (set_tempQueue
           (set_entries (tempQueue w)
              (changeEntries (readings w) (reads w) (to_array bookmarks)))
           (set_reads (reads w + length (to_array bookmarks)) w)),
      pool),
     sched).
Proof.
  intros Hs Hne. unfold LocalChangeManager.addChange.
  destruct (to_array bookmarks) as [|b l] eqn:E; [done|].
  change (Nat.eqb (length (b :: l)) 0) with false. cbv iota.
  rewrite run_with_bind, run_with_changeEntries.
  rewrite run_with_bind, run_with_read.
  change (isSyncing (set_reads ?n w)) with (isSyncing w). rewrite Hs.
  rewrite run_with_bind, run_with_forEach_tempQueue_set, run_with_logger.
  by destruct w.
Qed.

Lemma addChange_idle bookmarks isDeleted w :
  isSyncing w = false →
  to_array bookmarks ≠ [] →
  run (LocalChangeManager.addChange bookmarks isDeleted) w
  = (Return tt,
     add_log (InfoSaved (length (to_array bookmarks)))
       (LocalStorageMgr_set_pendingChanges
          (assign_entries (pendingChanges w)
             (changeEntries (readings w) (reads w) (to_array bookmarks)))
          (set_reads (reads w + length (to_array bookmarks)) w)).2).
Proof.
  intros Hs Hne. unfold LocalChangeManager.addChange.
  destruct (to_array bookmarks) as [|b l] eqn:E; [done|].
  change (Nat.eqb (length (b :: l)) 0) with false. cbv iota.
  rewrite run_bind.
  rewrite (run_of_run_with _ _ [] _ _ _ (run_with_changeEntries [] _ _ _)).
  destruct w as [s q st o r n lg]. simpl in Hs. subst s. simpl.
  unfold pendingChanges. simpl. by destruct (st_pendingChanges st).
Qed.

(** ** Keyed overwrite: the last writer of a key wins *)

Lemma last_entry_cons key e es :
  last_entry key (e :: es) =
    match last_entry key es with
    | Some c => Some c
    | None => if decide (e.1 = key) then Some e.2 else None
    end.
Proof.
  unfold last_entry. rewrite filter_cons. case_decide.
  - rewrite last_cons. by destruct (last _).
  - by destruct (last _).
Qed.

Lemma last_entry_elem_of key es c :
  last_entry key es = Some c → (key, c) ∈ es.
Proof.
  unfold last_entry. intros H.
  destruct (last _) as [[k c']|] eqn:E; [|done]. simpl in H.
  injection H as ->.
  assert ((k, c) ∈ filter (λ e, e.1 = key) es) as [Hk ?]%list_elem_of_filter.
  { apply last_Some in E as [l' ->]. apply elem_of_app. right.
    by apply list_elem_of_singleton. }
  simpl in Hk. by subst k.
Qed.

Lemma last_entry_is_Some key es :
  key ∈ es.*1 → is_Some (last_entry key es).
Proof.
  intros [[k c] [-> He]]%list_elem_of_fmap. unfold last_entry.
  assert ((k, c) ∈ filter (λ e, e.1 = k) es) as Hin
    by (by apply list_elem_of_filter).
  destruct (filter _ es) as [|x l] eqn:E; [by apply elem_of_nil in Hin|].
  rewrite last_cons. destruct (last l); by eexists.
Qed.

Lemma last_entry_None key es :
  key ∉ es.*1 → last_entry key es = None.
Proof.
  intros Hk. destruct (last_entry key es) as [c|] eqn:E; [|done].
  apply last_entry_elem_of in E. destruct Hk.
  apply list_elem_of_fmap. by exists (key, c).
Qed.

(** In a [Map]. *)
Lemma set_entries_app q es1 es2 :
  set_entries q (es1 ++ es2) = set_entries (set_entries q es1) es2.
Proof. apply foldl_app. Qed.

Lemma set_entries_lookup q es key :
  set_entries q es !! key =
    match last_entry key es with
    | Some c => Some c
    | None => q !! key
    end.
Proof.
  revert q. induction es as [|e es IH]; intros q; [done|].
  change (set_entries q (e :: es)) with (set_entries (<[e.1 := e.2]> q) es).
  rewrite IH, last_entry_cons. destruct (last_entry key es); [done|].
  rewrite lookup_insert. by case_decide.
Qed.

(** In a plain object. *)
Lemma obj_set_lookup k v o key :
  obj_set k v o !! key =
    if decide (k = key ∧ storable o k) then Some v else o !! key.
Proof.
  unfold obj_set, storable. case_decide as Hc.
  - destruct Hc as [-> Hn]. rewrite decide_False; [done|].
    intros [_ [?|[x Hx]]]; [done|congruence].
  - rewrite lookup_insert. case_decide as Hk.
    + subst key. rewrite decide_True; [done|]. split; [done|].
      destruct (decide (k = "__proto__")) as [->|]; [|by left].
      right. destruct (o !! "__proto__") eqn:E; [by eexists|].
      destruct Hc. by split.
    + rewrite decide_False; [done|]. by intros [? _].
Qed.

Lemma obj_set_storable k v o key :
  storable (obj_set k v o) key ↔ storable o key.
Proof.
  unfold storable. rewrite obj_set_lookup. case_decide as Hc; [|done].
  destruct Hc as [-> Hk]. split; [|intros [?|?]; [by left|right; by eexists]].
  intros [?|_]; [by left|done].
Qed.

Lemma assign_entries_app o es1 es2 :
  assign_entries o (es1 ++ es2) = assign_entries (assign_entries o es1) es2.
Proof. apply foldl_app. Qed.

Lemma assign_entries_storable o es key :
  storable (assign_entries o es) key ↔ storable o key.
Proof.
  revert o. induction es as [|e es IH]; intros o; [done|].
  change (assign_entries o (e :: es))
    with (assign_entries (obj_set e.1 e.2 o) es).
  by rewrite IH, obj_set_storable.
Qed.

Lemma assign_entries_lookup o es key :
  assign_entries o es !! key =
    if decide (storable o key)
    then match last_entry key es with
         | Some c => Some c
         | None => o !! key
         end
    else None.
Proof.
  revert o. induction es as [|e es IH]; intros o.
  - simpl. case_decide as Hs; [done|].
    destruct (o !! key) eqn:E; [|done]. destruct Hs. right. by eexists.
  - change (assign_entries o (e :: es))
      with (assign_entries (obj_set e.1 e.2 o) es).
    rewrite IH, last_entry_cons.
    rewrite (decide_ext _ _ _ _ (obj_set_storable e.1 e.2 o key)).
    case_decide as Hs; [|done].
    destruct (last_entry key es); [done|].
    rewrite obj_set_lookup. case_decide as Hk.
    + destruct Hk as [-> _]. by rewrite decide_True.
    + case_decide as He; [|done]. subst key. destruct Hk. by split.
Qed.

Lemma assign_entries_dom o es :
  dom (assign_entries o es)
  = dom o ∪ list_to_set (filter (λ key, storable o key) es.*1).
Proof.
  apply set_eq. intros key.
  rewrite elem_of_union, elem_of_list_to_set, list_elem_of_filter.
  rewrite !elem_of_dom, assign_entries_lookup.
  case_decide as Hs.
  - destruct (last_entry key es) as [c|] eqn:E.
    + split; [|by eexists]. intros _. right. split; [done|].
      apply last_entry_elem_of in E. apply list_elem_of_fmap. by exists (key, c).
    + split; [by left|]. intros [?|[_ Hk]]; [done|].
      apply last_entry_is_Some in Hk. rewrite E in Hk. by destruct Hk.
  - split; [by intros [? ?]|]. intros [[x Hx]|[? _]]; [|done].
    destruct Hs. right. by eexists.
Qed.

(** The loop of [mergeTempQueueToStorage] copies the queue into a fresh
    object, which cannot take a ["__proto__"] key. *)
Lemma assign_entries_map_to_list (q : gmap string ChangeRecord) :
  assign_entries ∅ (map_to_list q) = delete "__proto__" q.
Proof.
  apply map_eq. intros key. rewrite assign_entries_lookup, lookup_empty.
  assert (last_entry key (map_to_list q) = q !! key) as ->.
  { destruct (last_entry key (map_to_list q)) as [c|] eqn:E.
    - apply last_entry_elem_of in E. by apply elem_of_map_to_list in E.
    - destruct (q !! key) as [c|] eqn:Hq; [|done].
      apply elem_of_map_to_list in Hq.
      destruct (last_entry_is_Some key (map_to_list q)) as [c' Hc'].
      + apply list_elem_of_fmap. by exists (key, c).
      + congruence. }
  destruct (decide (key = "__proto__")) as [->|Hne].
  - rewrite lookup_delete_eq, decide_False; [done|].
    intros [?|[x Hx]]; [done|]. by rewrite lookup_empty in Hx.
  - rewrite lookup_delete_ne by done. rewrite decide_True by by left.
    by destruct (q !! key).
Qed.

Lemma changeEntries_app r n l1 l2 :
  changeEntries r n (l1 ++ l2) =
    changeEntries r n l1 ++ changeEntries r (n + length l1) l2.
Proof.
  revert n. induction l1 as [|b l1 IH]; intros n; simpl.
  - by rewrite Nat.add_0_r.
  - by rewrite IH, Nat.add_succ_r.
Qed.

Lemma changeEntries_keys r n l : (changeEntries r n l).*1 = url <$> l.
Proof. revert n. induction l as [|b l IH]; intros n; [done|]. simpl. by rewrite IH. Qed.

Lemma changeEntries_not_deleted r n l key c :
  (key, c) ∈ changeEntries r n l → deleted (change c) = false.
Proof.
  revert n. induction l as [|b l IH]; intros n; simpl.
  - by intros ?%elem_of_nil.
  - intros [E|?]%elem_of_cons; [by injection E as -> ->|by eapply IH].
Qed.

(** The number of distinct keys of a list of URLs. *)
Lemma size_list_to_set_urls (l : list string) :
  size (list_to_set l : gset string) = length (remove_dups l).
Proof.
  rewrite <- (size_list_to_set (C:=gset string) (remove_dups l))
    by apply NoDup_remove_dups.
  f_equal. apply set_eq. intros x.
  by rewrite !elem_of_list_to_set, elem_of_remove_dups.
Qed.

(** The last entry built for a key is the snapshot of the last bookmark
    with that URL. *)
Lemma last_entry_changeEntries r n l key :
  change <$> last_entry key (changeEntries r n l) =
    convertToServerFormat <$> last (filter (λ b, url b = key) l).
Proof.
  revert n. induction l as [|b l IH]; intros n; [done|].
  simpl changeEntries. rewrite last_entry_cons, filter_cons. simpl.
  specialize (IH (S n)). case_decide.
  - rewrite last_cons.
    destruct (last_entry key _), (last (filter _ l)); simpl in *; congruence.
  - destruct (last_entry key _), (last (filter _ l)); simpl in *; congruence.
Qed.

Lemma to_array_as_sequence bookmarks : to_array bookmarks = as_sequence bookmarks.
Proof. by destruct bookmarks. Qed.

(** The whole effect of one [addChange], run alone, on the two maps, the
    clock and the flag. *)
Lemma addChange_effect bookmarks isDeleted w :
  let w' := (run (LocalChangeManager.addChange bookmarks isDeleted) w).2 in
  let entries := changeEntries (readings w) (reads w) (to_array bookmarks) in
  (run (LocalChangeManager.addChange bookmarks isDeleted) w).1 = Return tt
  ∧ tempQueue w' =
      (if isSyncing w then set_entries (tempQueue w) entries else tempQueue w)
  ∧ pendingChanges w' =
      (if isSyncing w then pendingChanges w
       else assign_entries (pendingChanges w) entries)
  ∧ reads w' = reads w + length (to_array bookmarks)
  ∧ isSyncing w' = isSyncing w
  ∧ readings w' = readings w
  ∧ st_lastSyncVersion (storage w') = st_lastSyncVersion (storage w)
  ∧ st_bookmarks (storage w') = st_bookmarks (storage w)
  ∧ (isSyncing w = true → storage w' = storage w).
Proof.
  cbv zeta. destruct (decide (to_array bookmarks = [])) as [E|E].
  - rewrite (run_of_run_with _ _ [] _ _ _
               (addChange_empty [] _ isDeleted (w, []) E)).
    rewrite E. simpl. rewrite Nat.add_0_r. by destruct (isSyncing w).
  - destruct (isSyncing w) eqn:Hs.
    + rewrite (run_of_run_with _ _ [] _ _ _
                 (addChange_syncing [] _ isDeleted w [] Hs E)).
      by destruct w.
    + rewrite addChange_idle by done. destruct w as [s q st o r n lg].
      simpl in *. subst s. by repeat split.
Qed.

Lemma record_all_cons c calls w :
  record_all (c :: calls) w =
    record_all calls (run (LocalChangeManager.addChange c.1 c.2) w).2.
Proof. done. Qed.

Lemma mentioned_cons c calls :
  mentioned (c :: calls) = as_sequence c.1 ++ mentioned calls.
Proof. done. Qed.

Lemma record_all_idle calls w :
  isSyncing w = false →
  let w' := record_all calls w in
  pendingChanges w' =
    assign_entries (pendingChanges w)
      (changeEntries (readings w) (reads w) (mentioned calls))
  ∧ isSyncing w' = false
  ∧ tempQueue w' = tempQueue w
  ∧ readings w' = readings w
  ∧ reads w' = reads w + length (mentioned calls).
Proof.
  revert w. induction calls as [|c calls IH]; intros w Hs w'.
  - subst w'. simpl. by rewrite Nat.add_0_r.
  - destruct (addChange_effect c.1 c.2 w)
      as (_ & Hq & Hp & Hn & Hs1 & Hr & _).
    rewrite Hs in Hq, Hp, Hs1. rewrite to_array_as_sequence in Hp, Hn.
    destruct (IH _ Hs1) as (Hp' & Hs' & Hq' & Hr' & Hn').
    subst w'. rewrite record_all_cons, mentioned_cons.
    rewrite Hp', Hs', Hq', Hr', Hn', Hp, Hq, Hr, Hn.
    rewrite changeEntries_app, assign_entries_app, length_app.
    repeat split; try done. lia.
Qed.

(** ** Properties of the ledger *)

(** C9: [addChange] called with an empty array returns normally and leaves
    the whole world, the durable PendingChangeSet and the overflow buffer
    included, and the other tasks as they were, whether a sync pass is
    active or not and whatever is scheduled. *)
Theorem addChange_empty_is_noop sched isDeleted s :
  run_with sched (LocalChangeManager.addChange (Many []) isDeleted) s
  = (Return tt, s, sched).
Proof. by apply addChange_empty. Qed.



(** C4: after a sequence of [addChange] calls made while
    [isSyncing] is false, each completed before the next is made and with
    no other task running, the durable PendingChangeSet holds, under every
    URL the sequence mentioned that an assignment to the stored object can
    take (any URL but a ["__proto__"] the object does not own), one
    change, the one built for the last bookmark with that URL; it holds
    what it held under every other key; its keys are the keys it had
    before together with those URLs; and starting from an empty set it
    has as many entries as the sequence has distinct URLs other than
    ["__proto__"]. *)
Theorem addChange_sequence_last_call_wins calls w :
  isSyncing w = false →
  let w' := record_all calls w in
  let entries := changeEntries (readings w) (reads w) (mentioned calls) in
  (∀ key, key ∈ url <$> mentioned calls →
     storable (pendingChanges w) key →
     ∃ c b,
       pendingChanges w' !! key = Some c
       ∧ last_entry key entries = Some c
       ∧ last (filter (λ b, url b = key) (mentioned calls)) = Some b
       ∧ change c = convertToServerFormat b)
  ∧ (∀ key, key ∉ url <$> mentioned calls ∨ ¬ storable (pendingChanges w) key →
       pendingChanges w' !! key = pendingChanges w !! key)
  ∧ dom (pendingChanges w') =
      dom (pendingChanges w)
      ∪ list_to_set (filter (λ key, storable (pendingChanges w) key)
                            (url <$> mentioned calls))
  ∧ (pendingChanges w = ∅ →
     size (pendingChanges w')
     = length (remove_dups (filter (λ key, key ≠ "__proto__")
                                   (url <$> mentioned calls))))
  ∧ tempQueue w' = tempQueue w.
Proof.
  intros Hs w' entries.
  destruct (record_all_idle calls w Hs) as (Hp & _ & Hq & _).
  fold w' in Hp, Hq. fold entries in Hp. rewrite Hp.
  assert (entries.*1 = url <$> mentioned calls) as Hkeys
    by apply changeEntries_keys.
  assert (dom (assign_entries (pendingChanges w) entries) =
          dom (pendingChanges w)
          ∪ list_to_set (filter (λ key, storable (pendingChanges w) key)
                                (url <$> mentioned calls))) as Hdom.
  { by rewrite assign_entries_dom, Hkeys. }
  split; [|split; [|split; [|split]]].
  - intros key Hk Hst. rewrite <- Hkeys in Hk.
    destruct (last_entry_is_Some _ _ Hk) as [c Hc].
    pose proof (last_entry_changeEntries (readings w) (reads w)
                  (mentioned calls) key) as Hb.
    fold entries in Hb. rewrite Hc in Hb. simpl in Hb.
    destruct (last (filter _ (mentioned calls))) as [b|] eqn:Eb; [|done].
    exists c, b. rewrite assign_entries_lookup, decide_True, Hc by done.
    repeat split; try done. simpl in Hb. congruence.
  - intros key Hk. rewrite assign_entries_lookup.
    case_decide as Hst.
    + destruct Hk as [Hk|Hk]; [|done]. rewrite <- Hkeys in Hk.
      by rewrite (last_entry_None _ _ Hk).
    + destruct (pendingChanges w !! key) eqn:E; [|done].
      destruct Hst. right. by eexists.
  - done.
  - intros Hempty. rewrite <- size_dom, Hdom, Hempty, dom_empty_L.
    rewrite (left_id_L ∅ (∪)), size_list_to_set_urls. do 2 f_equal.
    apply list_filter_iff. intros key. unfold storable.
    rewrite lookup_empty. split; [|by left]. intros [?|[? ?]]; done.
  - done.
Qed.

Lemma addChange_sequence_last_call_wins_witness :
  let calls := [(One bookmark_a, false);
                (Many [bookmark_b; bookmark_a'; bookmark_p], true)] in
  let w := synced_world in
  let w' := record_all calls w in
  let entries := changeEntries (readings w) (reads w) (mentioned calls) in
  isSyncing w = false
  ∧ (∀ key, key ∈ url <$> mentioned calls →
       storable (pendingChanges w) key →
       ∃ c b,
         pendingChanges w' !! key = Some c
         ∧ last_entry key entries = Some c
         ∧ last (filter (λ b, url b = key) (mentioned calls)) = Some b
         ∧ change c = convertToServerFormat b)
  ∧ (∀ key, key ∉ url <$> mentioned calls ∨ ¬ storable (pendingChanges w) key →
       pendingChanges w' !! key = pendingChanges w !! key)
  ∧ dom (pendingChanges w') =
      dom (pendingChanges w)
      ∪ list_to_set (filter (λ key, storable (pendingChanges w) key)
                            (url <$> mentioned calls))
  ∧ (pendingChanges w = ∅ →
     size (pendingChanges w')
     = length (remove_dups (filter (λ key, key ≠ "__proto__")
                                   (url <$> mentioned calls))))
  ∧ tempQueue w' = tempQueue w.
Proof.
  split; [reflexivity|].
  apply (addChange_sequence_last_call_wins
           [(One bookmark_a, false);
            (Many [bookmark_b; bookmark_a'; bookmark_p], true)]
           synced_world).
  reflexivity.
Defined.

(** C4 does not extend to overlapping calls, nor to every URL.  Two
    calls of [addChange] made while [isSyncing] is false, the second made
    while the first waits for the store: both return normally, and the
    durable PendingChangeSet holds no change for the URL of the second,
    whose write the first has overwritten.  And a call made alone for a bookmark whose URL is
    ["__proto__"] returns normally and leaves no change under that URL. *)
Lemma addChange_sequence_loses_changes :
  let r := run_with [[Spawn (CallAddChange (One bookmark_b) false);
                      Resume 0; Resume 0; Resume 0]]
             (LocalChangeManager.addChange (One bookmark_a) false)
             (synced_world, []) in
  let w' := record_all [(One bookmark_p, false)] synced_world in
  (isSyncing synced_world = false
   ∧ r.1.1 = Return tt
   ∧ r.1.2.2 = [Settle (Return tt)]
   ∧ isSyncing r.1.2.1 = false
   ∧ pendingChanges r.1.2.1 !! url bookmark_b = None
   ∧ dom (pendingChanges r.1.2.1) = {[ url bookmark_a ]})
  ∧ (pendingChanges w' !! url bookmark_p = None
     ∧ pendingChanges w' = ∅).
Proof. cbv zeta. repeat split; vm_compute; reflexivity. Qed.

(** C8: whatever [isDeleted] is passed to [addChange], every payload it
    builds with [convertToServerFormat] carries [deleted = false]: so does
    every entry the call builds, every change that the call has put in or
    replaced in [tempQueue] or the durable PendingChangeSet, and the
    change found afterwards under the URL of each bookmark of the input,
    in [tempQueue] during a sync pass and, where the stored object can
    take that URL as a key, in the durable set otherwise. *)
Theorem addChange_records_deleted_false bookmarks isDeleted w b :
  b ∈ as_sequence bookmarks →
  let w' := (run (LocalChangeManager.addChange bookmarks isDeleted) w).2 in
  let entries := changeEntries (readings w) (reads w) (as_sequence bookmarks) in
  deleted (convertToServerFormat b) = false
  ∧ tempQueue w' =
      (if isSyncing w then set_entries (tempQueue w) entries else tempQueue w)
  ∧ pendingChanges w' =
      (if isSyncing w then pendingChanges w
       else assign_entries (pendingChanges w) entries)
  ∧ Forall (λ e, deleted (change e.2) = false) entries
  ∧ (∀ key c, tempQueue w' !! key = Some c →
       tempQueue w !! key = Some c ∨ deleted (change c) = false)
  ∧ (∀ key c, pendingChanges w' !! key = Some c →
       pendingChanges w !! key = Some c ∨ deleted (change c) = false)
  ∧ (isSyncing w = true ∨ storable (pendingChanges w) (url b) →
     ∃ c, (if isSyncing w then tempQueue w' else pendingChanges w') !! url b
          = Some c
          ∧ deleted (change c) = false).
Proof.
  intros Hb w' entries. subst w'.
  destruct (addChange_effect bookmarks isDeleted w) as (_ & Hq & Hp & _).
  rewrite to_array_as_sequence in Hq, Hp. fold entries in Hq, Hp.
  assert (∀ key c, last_entry key entries = Some c →
                   deleted (change c) = false) as Hlast.
  { intros key c Hc. apply last_entry_elem_of in Hc.
    by eapply changeEntries_not_deleted. }
  assert (url b ∈ entries.*1) as Hk.
  { subst entries. rewrite changeEntries_keys. by apply list_elem_of_fmap_2. }
  destruct (last_entry_is_Some _ _ Hk) as [cb Hcb].
  split; [done|]. split; [done|]. split; [done|]. split.
  { apply Forall_forall. intros [key c] He.
    by eapply changeEntries_not_deleted. }
  rewrite Hq, Hp. destruct (isSyncing w).
  - split; [|split; [by left|]].
    + intros key c. rewrite set_entries_lookup.
      destruct (last_entry key entries) as [c'|] eqn:E; [|by left].
      intros [= <-]. right. by eapply Hlast.
    + intros _. exists cb. rewrite set_entries_lookup, Hcb.
      split; [done|by eapply Hlast].
  - split; [by left|]. split.
    + intros key c. rewrite assign_entries_lookup. case_decide; [|done].
      destruct (last_entry key entries) as [c'|] eqn:E; [|by left].
      intros [= <-]. right. by eapply Hlast.
    + intros [?|Hst]; [done|]. exists cb.
      rewrite assign_entries_lookup, decide_True, Hcb by done.
      split; [done|by eapply Hlast].
Qed.

Lemma addChange_records_deleted_false_witness :
  let bookmarks := Many [bookmark_a; bookmark_p] in
  let w := synced_world in
  let w' := (run (LocalChangeManager.addChange bookmarks true) w).2 in
  let entries := changeEntries (readings w) (reads w) (as_sequence bookmarks) in
  bookmark_a ∈ as_sequence bookmarks
  ∧ deleted (convertToServerFormat bookmark_a) = false
  ∧ tempQueue w' =
      (if isSyncing w then set_entries (tempQueue w) entries else tempQueue w)
  ∧ pendingChanges w' =
      (if isSyncing w then pendingChanges w
       else assign_entries (pendingChanges w) entries)
  ∧ Forall (λ e, deleted (change e.2) = false) entries
  ∧ (∀ key c, tempQueue w' !! key = Some c →
       tempQueue w !! key = Some c ∨ deleted (change c) = false)
  ∧ (∀ key c, pendingChanges w' !! key = Some c →
       pendingChanges w !! key = Some c ∨ deleted (change c) = false)
  ∧ (isSyncing w = true ∨ storable (pendingChanges w) (url bookmark_a) →
     ∃ c, (if isSyncing w then tempQueue w' else pendingChanges w')
            !! url bookmark_a = Some c
          ∧ deleted (change c) = false).
Proof.
  assert (bookmark_a ∈ as_sequence (Many [bookmark_a; bookmark_p])) as Hb
    by (apply elem_of_cons; by left).
  split; [exact Hb|].
  exact (addChange_records_deleted_false (Many [bookmark_a; bookmark_p]) true
           synced_world bookmark_a Hb).
Defined.

(** C10: [clearChanges] called twice in a row returns normally both times,
    the durable PendingChangeSet is empty after each call, and the second
    call changes nothing. *)
Theorem clearChanges_idempotent w :
  let r1 := run LocalChangeManager.clearChanges w in
  let r2 := run LocalChangeManager.clearChanges r1.2 in
  r1.1 = Return tt
  ∧ pendingChanges r1.2 = ∅
  ∧ r2.1 = Return tt
  ∧ pendingChanges r2.2 = ∅
  ∧ r2.2 = r1.2.
Proof. by destruct w. Qed.

(** ** Properties of the coordinator *)

Lemma run_getSyncVersion w :
  run SyncManager.getSyncVersion w = (Return (syncVersion w), w).
Proof. done. Qed.

Lemma run_recordBookmarkChange bookmarks isDeleted w :
  run (SyncManager.recordBookmarkChange bookmarks isDeleted) w
  = if decide (syncVersion w ≠ 0%Z)
    then run (LocalChangeManager.addChange (Many (to_array bookmarks)) isDeleted)
             (add_log (DebugRecordChange (to_array bookmarks) isDeleted
                                         (syncVersion w)) w)
    else (Return tt,
          add_log (DebugRecordChange (to_array bookmarks) isDeleted
                                     (syncVersion w)) w).
Proof.
  unfold SyncManager.recordBookmarkChange.
  rewrite run_bind, run_await, run_getSyncVersion, run_bind.
  change (run (logger ?e) w) with (Return tt, add_log e w).
  cbv beta iota. case_decide; [|done]. apply run_await.
Qed.

(** C7: when the persisted SyncVersion is 0 (absent included),
    [recordBookmarkChange] logs the call and returns without calling
    [addChange]: whatever the bookmarks and [isDeleted], the overflow
    buffer and the store are what they were. *)
Theorem recordBookmarkChange_drops_when_never_synced bookmarks isDeleted w :
  syncVersion w = 0%Z →
  ∃ w',
    run (SyncManager.recordBookmarkChange bookmarks isDeleted) w = (Return tt, w')
    ∧ w' = add_log (DebugRecordChange (to_array bookmarks) isDeleted 0) w
    ∧ tempQueue w' = tempQueue w
    ∧ storage w' = storage w
    ∧ pendingChanges w' = pendingChanges w.
Proof.
  intros Hv. eexists. split; [|by destruct w].
  rewrite run_recordBookmarkChange, Hv. by rewrite decide_False by (by intros H).
Qed.

Lemma recordBookmarkChange_drops_when_never_synced_witness :
  syncVersion fresh_world = 0%Z
  ∧ ∃ w',
      run (SyncManager.recordBookmarkChange (Many [bookmark_a; bookmark_b]) true)
          fresh_world = (Return tt, w')
      ∧ w' = add_log (DebugRecordChange
                        (to_array (Many [bookmark_a; bookmark_b])) true 0)
                     fresh_world
      ∧ tempQueue w' = tempQueue fresh_world
      ∧ storage w' = storage fresh_world
      ∧ pendingChanges w' = pendingChanges fresh_world.
Proof.
  split; [reflexivity|].
  apply (recordBookmarkChange_drops_when_never_synced
           (Many [bookmark_a; bookmark_b]) true fresh_world).
  reflexivity.
Defined.

(** ** Tasks that only record mutations *)

Lemma keeps_sync_state_refl w : keeps_sync_state w w.
Proof. by repeat split. Qed.

Lemma keeps_sync_state_trans w1 w2 w3 :
  keeps_sync_state w1 w2 → keeps_sync_state w2 w3 → keeps_sync_state w1 w3.
Proof.
  intros (? & ? & ? & ? & ?) (? & ? & ? & ? & ?).
  repeat split; congruence.
Qed.

Lemma recording_bind {A B} (m : Async A) (f : A → Async B) :
  recording m → (∀ a, recording (f a)) → recording (bind m f).
Proof.
  intros Hm Hf. induction Hm as [[a|e]|X act k Hact Hk IH|k Hk IH]; simpl.
  - apply Hf.
  - constructor.
  - by constructor.
  - by constructor.
Qed.

Lemma recording_await {A} (m : Async A) : recording m → recording (await m).
Proof.
  intros Hm. induction Hm as [o|X act k Hact Hk IH|k Hk IH]; simpl.
  - repeat constructor.
  - by constructor.
  - by constructor.
Qed.

Lemma recording_ret {A} (a : A) : recording (ret a).
Proof. constructor. Qed.

Lemma recording_call {X} (act : World → X * World) :
  (∀ w, keeps_sync_state w (act w).2) → recording (call act).
Proof. intros H. constructor; [done|]. intros x. constructor. Qed.

Lemma recording_read {X} (f : World → X) : recording (read f).
Proof. apply recording_call. intros w. apply keeps_sync_state_refl. Qed.

Lemma recording_modify f :
  (∀ w, keeps_sync_state w (f w)) → recording (modify f).
Proof. intros H. by apply recording_call. Qed.

Lemma recording_logger e : recording (logger e).
Proof. apply recording_modify. intros w. by repeat split. Qed.

Lemma recording_Date_now : recording Date_now.
Proof. apply recording_call. intros w. by repeat split. Qed.

Lemma recording_mapM {A B} (f : A → Async B) l :
  (∀ a, recording (f a)) → recording (mapM f l).
Proof.
  intros Hf. induction l as [|a l IH]; simpl.
  - constructor.
  - apply recording_bind; [apply Hf|]. intros y.
    apply recording_bind; [apply IH|]. intros ys. constructor.
Qed.

Lemma recording_forEach {A} (f : A → Async unit) l :
  (∀ a, recording (f a)) → recording (LocalChangeManager.forEach l f).
Proof.
  intros Hf. induction l as [|a l IH]; simpl.
  - constructor.
  - apply recording_bind; [apply Hf|]. intros _. apply IH.
Qed.

Lemma recording_getPendingChanges : recording LocalChangeManager.getPendingChanges.
Proof.
  apply recording_bind.
  - apply recording_await, recording_call. intros w. apply keeps_sync_state_refl.
  - intros c. constructor.
Qed.

Lemma recording_set_pendingChanges changes :
  recording (call (LocalStorageMgr_set_pendingChanges changes)).
Proof. apply recording_call. intros w. by repeat split. Qed.

Lemma recording_getSyncVersion : recording SyncManager.getSyncVersion.
Proof.
  apply recording_bind.
  - apply recording_await, recording_call. intros w. apply keeps_sync_state_refl.
  - intros c. constructor.
Qed.

Lemma recording_addChange bookmarks isDeleted :
  recording (LocalChangeManager.addChange bookmarks isDeleted).
Proof.
  unfold LocalChangeManager.addChange.
  destruct (Nat.eqb _ _); [constructor|].
  apply recording_bind.
  { apply recording_mapM. intros b.
    apply recording_bind; [apply recording_Date_now|]. intros now. constructor. }
  intros entries. apply recording_bind; [apply recording_read|].
  intros [].
  - apply recording_bind; [|intros _; apply recording_logger].
    apply recording_forEach. intros e. apply recording_modify.
    intros w. by repeat split.
  - apply recording_bind; [apply recording_await, recording_getPendingChanges|].
    intros changes. apply recording_bind; [|intros _; apply recording_logger].
    apply recording_await, recording_set_pendingChanges.
Qed.

Lemma recording_recordBookmarkChange bookmarks isDeleted :
  recording (SyncManager.recordBookmarkChange bookmarks isDeleted).
Proof.
  unfold SyncManager.recordBookmarkChange.
  apply recording_bind; [apply recording_await, recording_getSyncVersion|].
  intros v. apply recording_bind; [apply recording_logger|]. intros _.
  case_decide; [|constructor].
  apply recording_await, recording_addChange.
Qed.

Lemma recording_task_of c : mutation_call c → recording (task_of c).
Proof.
  destruct c; simpl; try done; intros _.
  - apply recording_recordBookmarkChange.
  - apply recording_addChange.
Qed.

Lemma advance_recording {A} (m : Async A) w :
  recording m →
  recording (advance m w).1 ∧ keeps_sync_state w (advance m w).2.
Proof.
  intros Hm. revert w.
  induction Hm as [o|X act k Hact Hk IH|k Hk IH]; intros w; simpl.
  - split; [constructor|apply keeps_sync_state_refl].
  - specialize (Hact w). destruct (act w) as [x w']. simpl in Hact.
    destruct (IH x w') as [H1 H2]. split; [done|].
    by eapply keeps_sync_state_trans.
  - split; [done|apply keeps_sync_state_refl].
Qed.

Lemma perform_recording a w pool :
  mutation_action a →
  recording_pool pool →
  keeps_sync_state w (perform a (w, pool)).1
  ∧ recording_pool (perform a (w, pool)).2.
Proof.
  intros Ha Hpool. destruct a as [c|i]; unfold perform; simpl.
  - destruct (advance_recording (task_of c) w (recording_task_of c Ha))
      as [H1 H2].
    destruct (advance (task_of c) w) as [t w']. simpl in *.
    split; [done|]. apply Forall_app. split; [done|]. by constructor.
  - destruct (pool !! i) as [t|] eqn:E; simpl.
    + assert (recording t) as Ht by (by eapply Forall_lookup_1).
      destruct (advance_recording t w Ht) as [H1 H2].
      destruct (advance t w) as [t' w']. simpl in *.
      split; [done|]. by apply Forall_insert.
    + split; [apply keeps_sync_state_refl|done].
Qed.

Lemma perform_all_recording acts w pool :
  Forall mutation_action acts →
  recording_pool pool →
  keeps_sync_state w (perform_all acts (w, pool)).1
  ∧ recording_pool (perform_all acts (w, pool)).2.
Proof.
  intros Hacts. revert w pool.
  induction Hacts as [|a acts Ha Hacts IH]; intros w pool Hpool.
  - split; [apply keeps_sync_state_refl|done].
  - unfold perform_all. simpl.
    destruct (perform_recording a w pool Ha Hpool) as [H1 H2].
    destruct (perform a (w, pool)) as [w1 pool1]. simpl in *.
    destruct (IH w1 pool1 H2) as [H3 H4].
    split; [by eapply keeps_sync_state_trans|done].
Qed.

Lemma mutation_schedule_next_batch sched :
  mutation_schedule sched → Forall mutation_action (next_batch sched).
Proof. intros H. destruct H; [constructor|done]. Qed.

Lemma mutation_schedule_tail sched :
  mutation_schedule sched → mutation_schedule (tail sched).
Proof. intros H. destruct H; [constructor|done]. Qed.

(** At a suspension point of a task, under a schedule of mutation calls
    and with a pool of recording tasks, the sync state is kept. *)
Lemma suspension_recording sched w pool :
  mutation_schedule sched →
  recording_pool pool →
  keeps_sync_state w (perform_all (next_batch sched) (w, pool)).1
  ∧ recording_pool (perform_all (next_batch sched) (w, pool)).2.
Proof.
  intros Hsched. by apply perform_all_recording, mutation_schedule_next_batch.
Qed.

(** [holds_after] is sound for [run_with]. *)
Lemma holds_after_sound {A} (m : Async A) Q sched w pool :
  mutation_schedule sched →
  recording_pool pool →
  holds_after m Q w →
  ∃ o w' pool' sched',
    run_with sched m (w, pool) = (o, (w', pool'), sched')
    ∧ Q o w'
    ∧ recording_pool pool'
    ∧ mutation_schedule sched'.
Proof.
  revert sched w pool.
  induction m as [o|X act k IH|k IH]; intros sched w pool Hsched Hpool H; simpl.
  - by exists o, w, pool, sched.
  - simpl in H. destruct (act w) as [x w1]. by apply IH.
  - simpl in H. destruct (suspension_recording sched w pool Hsched Hpool)
      as [H1 H2].
    destruct (perform_all (next_batch sched) (w, pool)) as [w1 pool1].
    apply IH; [by apply mutation_schedule_tail|done|by apply H].
Qed.

Lemma holds_after_mono {A} (m : Async A) (Q Q' : Outcome A → World → Prop) w :
  (∀ o w', Q o w' → Q' o w') → holds_after m Q w → holds_after m Q' w.
Proof.
  intros HQ. revert w.
  induction m as [o|X act k IH|k IH]; intros w; simpl.
  - apply HQ.
  - apply IH.
  - intros H w' Hw'. by apply IH, H.
Qed.

Lemma holds_after_bind {A B} (m : Async A) (f : A → Async B) Q w :
  holds_after m
    (λ o w', match o with
             | Return a => holds_after (f a) Q w'
             | Throw e => Q (Throw e) w'
             end) w →
  holds_after (bind m f) Q w.
Proof.
  revert w. induction m as [[a|e]|X act k IH|k IH]; intros w; simpl.
  - done.
  - done.
  - apply IH.
  - intros H w' Hw'. by apply IH, H.
Qed.

Lemma holds_after_await {A} (m : Async A) Q w :
  holds_after m (λ o w', ∀ w'', keeps_sync_state w' w'' → Q o w'') w →
  holds_after (await m) Q w.
Proof.
  revert w. induction m as [o|X act k IH|k IH]; intros w; simpl.
  - done.
  - apply IH.
  - intros H w' Hw'. by apply IH, H.
Qed.

Lemma holds_after_try_catch {A} (m : Async A) (h : Error → Async A) Q w :
  holds_after m
    (λ o w', match o with
             | Return a => Q (Return a) w'
             | Throw e => holds_after (h e) Q w'
             end) w →
  holds_after (try_catch m h) Q w.
Proof.
  revert w. induction m as [[a|e]|X act k IH|k IH]; intros w; simpl.
  - done.
  - done.
  - apply IH.
  - intros H w' Hw'. by apply IH, H.
Qed.

Lemma holds_after_try_finally {A} (m : Async A) (fin : Async unit) Q w :
  holds_after m
    (λ o w', holds_after fin
               (λ o' w'', match o' with
                          | Return _ => Q o w''
                          | Throw e => Q (Throw e) w''
                          end) w') w →
  holds_after (try_finally m fin) Q w.
Proof.
  revert w. induction m as [o|X act k IH|k IH]; intros w; simpl.
  - intros H. apply holds_after_bind.
    eapply holds_after_mono; [|exact H]. intros [[]|e] w'; done.
  - apply IH.
  - intros H w' Hw'. by apply IH, H.
Qed.

(** ** Passes under recording tasks *)

Lemma syncAllLocalBookmarks_holds w :
  isSyncing w = false →
  holds_after SyncManager.syncAllLocalBookmarks (pass_exit w) w.
Proof.
  intros Hs.
  unfold SyncManager.syncAllLocalBookmarks,
    SyncManager.syncAllLocalBookmarks_try,
    SyncManager.syncAllLocalBookmarks_finally, SyncManager.canSync,
    SyncManager.getSyncVersion, pass_exit.
  simpl. rewrite Hs. simpl. destruct (onLine w) eqn:Ho; simpl.
  - intros w1 H1 w2 H2 w3 H3 w4 H4 w5 H5. keeps_facts.
    repeat split; try congruence.
    exists (reads w1), (reads w4). split; congruence.
  - intros w1 H1. keeps_facts. repeat split; congruence.
Qed.

Lemma syncChange_holds w :
  isSyncing w = false →
  holds_after SyncManager.syncChange (pass_exit w) w.
Proof.
  intros Hs.
  unfold SyncManager.syncChange, SyncManager.syncChange_try,
    SyncManager.syncChange_finally, SyncManager.canSync,
    SyncManager.getSyncVersion, LocalChangeManager.getPendingChanges,
    LocalChangeManager.clearChanges,
    LocalChangeManager.mergeTempQueueToStorage, pass_exit.
  simpl. rewrite Hs. simpl. destruct (onLine w) eqn:Ho; simpl.
  - intros w1 H1 w2 H2 w3 H3 w4 H4 w5 H5 w6 H6 w7 H7 w8 H8.
    destruct (Nat.ltb 0 (size (tempQueue w8))); simpl.
    + intros w9 H9 w10 H10. keeps_facts.
      repeat split; try congruence.
      exists (reads w1), (reads w5). split; congruence.
    + intros w9 H9. keeps_facts.
      repeat split; try congruence.
      exists (reads w1), (reads w5). split; congruence.
  - intros w1 H1.
    destruct (Nat.ltb 0 (size (tempQueue w1))); simpl.
    + intros w9 H9 w10 H10. keeps_facts. repeat split; congruence.
    + intros w9 H9. keeps_facts. repeat split; congruence.
Qed.

Lemma startSync_holds w :
  isSyncing w = false →
  holds_after SyncManager.startSync (pass_exit w) w.
Proof.
  intros Hs. unfold SyncManager.startSync, SyncManager.getSyncVersion.
  simpl. intros w1 H1 w2 H2.
  assert (keeps_sync_state w w2) as H12 by (by eapply keeps_sync_state_trans).
  assert (isSyncing w2 = false) as Hs2 by (destruct H12; congruence).
  assert (∀ o w', pass_exit w2 o w' →
            ∀ w'', keeps_sync_state w' w'' → pass_exit w o w'') as Hexit.
  { unfold pass_exit. intros o w' (? & ? & ? & ? & Hout) w'' Hk.
    destruct H12 as (? & Ho & Hr & ? & ?).
    rewrite Ho, Hr in Hout. keeps_facts.
    repeat split; try congruence.
    destruct (onLine w).
    - destruct Hout as (v & v' & ? & ?). exists v, v'. split; congruence.
    - destruct Hout. split; congruence. }
  case_decide; apply holds_after_await.
  - eapply holds_after_mono; [|by apply syncAllLocalBookmarks_holds]. done.
  - eapply holds_after_mono; [|by apply syncChange_holds]. done.
Qed.

Lemma startSync_dispatch sched s :
  run_with sched SyncManager.startSync s
  = run_with (tail (tail sched))
      (await (if decide (syncVersion s.1 = 0%Z)
              then SyncManager.syncAllLocalBookmarks
              else SyncManager.syncChange))
      (perform_all (next_batch (tail sched))
         (perform_all (next_batch sched) s)).
Proof.
  destruct s as [w pool]. unfold SyncManager.startSync.
  rewrite run_with_bind, run_with_await, run_with_getSyncVersion.
  simpl fst. by case_decide.
Qed.

Lemma run_startSync w :
  run SyncManager.startSync w
  = run (if decide (syncVersion w = 0%Z) then SyncManager.syncAllLocalBookmarks
         else SyncManager.syncChange) w.
Proof.
  unfold SyncManager.startSync.
  rewrite run_bind, run_await, run_getSyncVersion.
  case_decide; apply run_await.
Qed.

Lemma length_Object_values {V W} (f : V → W) (o : gmap string V) :
  length (f <$> Object_values o) = size o.
Proof.
  unfold Object_values. by rewrite !length_fmap, length_map_to_list.
Qed.

Lemma run_syncAllLocalBookmarks_online w :
  isSyncing w = false →
  onLine w = true →
  run SyncManager.syncAllLocalBookmarks w
  = (Return (mkSyncResult (readings w (reads w)) "success"),
     mkWorld false (tempQueue w)
       (mkStorage (Some (readings w (S (reads w))))
          (st_pendingChanges (storage w)) (st_bookmarks (storage w)))
       true (readings w) (S (S (reads w)))
       (log w ++ [InfoSyncAll;
                  InfoSyncAllStart (size (st_bookmarks (storage w)));
                  InfoSyncAllDone])).
Proof.
  intros Hs Ho. destruct w as [s q st o r n lg]. simpl in Hs, Ho. subst s o.
  unfold SyncManager.syncAllLocalBookmarks. simpl.
  unfold set_isSyncing, add_log, set_storage, set_reads. simpl.
  by rewrite length_Object_values, <- !app_assoc.
Qed.

(** ** The first sync *)

(** C6: [startSync] reads the persisted SyncVersion and, once the read has
    completed, continues as [syncAllLocalBookmarks] exactly when the
    version read is 0 (absent included) and as [syncChange] otherwise.
    When the version is 0, no pass is active, the network is reachable and
    the clock never reads 0, the call returns a result with
    [lastSyncResult = "success"], leaves [isSyncing] false and a nonzero
    persisted SyncVersion, whatever mutations are recorded meanwhile;
    run alone, the pass has logged the number of all stored bookmarks,
    which it read and converted, and has changed nothing else but the
    version and the clock. *)
Theorem startSync_first_sync sched w pool :
  run_with sched SyncManager.startSync (w, pool)
    = run_with (tail (tail sched))
        (await (if decide (syncVersion w = 0%Z)
                then SyncManager.syncAllLocalBookmarks
                else SyncManager.syncChange))
        (perform_all (next_batch (tail sched))
           (perform_all (next_batch sched) (w, pool)))
  ∧ run SyncManager.startSync w
    = run (if decide (syncVersion w = 0%Z)
           then SyncManager.syncAllLocalBookmarks
           else SyncManager.syncChange) w
  ∧ (syncVersion w = 0%Z →
     isSyncing w = false →
     onLine w = true →
     (∀ n, readings w n ≠ 0%Z) →
     mutation_schedule sched →
     recording_pool pool →
     ∃ result w' pool' sched',
       run_with sched SyncManager.startSync (w, pool)
         = (Return result, (w', pool'), sched')
       ∧ lastSyncResult result = "success"
       ∧ isSyncing w' = false
       ∧ syncVersion w' ≠ 0%Z
       ∧ (sched = [] →
          result = mkSyncResult (readings w (reads w)) "success"
          ∧ w' = mkWorld false (tempQueue w)
                   (mkStorage (Some (readings w (S (reads w))))
                      (st_pendingChanges (storage w))
                      (st_bookmarks (storage w)))
                   true (readings w) (S (S (reads w)))
                   (log w ++ [InfoSyncAll;
                              InfoSyncAllStart (size (st_bookmarks (storage w)));
                              InfoSyncAllDone])
          ∧ pool' = pool)).
Proof.
  split; [apply (startSync_dispatch sched (w, pool))|].
  split; [apply run_startSync|].
  intros Hv Hs Ho Hclock Hsched Hpool.
  destruct (holds_after_sound _ _ sched w pool Hsched Hpool
              (startSync_holds w Hs))
    as (o & w' & pool' & sched' & Hrun & Hexit & _ & _).
  destruct Hexit as (Hs' & _ & _ & _ & Hout). rewrite Ho in Hout.
  destruct Hout as (v & v' & -> & Hv').
  exists (mkSyncResult (readings w v) "success"), w', pool', sched'.
  split; [done|]. split; [done|]. split; [done|]. split.
  - unfold syncVersion. rewrite Hv'.
    rewrite decide_False by apply Hclock. apply Hclock.
  - intros ->. rewrite run_with_nil, run_startSync in Hrun.
    rewrite decide_True in Hrun by done.
    rewrite run_syncAllLocalBookmarks_online in Hrun by done.
    simpl in Hrun. by injection Hrun as -> <- <-.
Qed.

Lemma wall_clock_nonzero n : wall_clock n ≠ 0%Z.
Proof. unfold wall_clock. lia. Qed.

Lemma startSync_first_sync_witness :
  let sched := [[Spawn (CallRecordBookmarkChange (One bookmark_a) false)];
                [Resume 0];
                [Spawn (CallAddChange (One bookmark_b) true); Resume 0]] in
  syncVersion fresh_world = 0%Z
  ∧ isSyncing fresh_world = false
  ∧ onLine fresh_world = true
  ∧ (∀ n, readings fresh_world n ≠ 0%Z)
  ∧ mutation_schedule sched
  ∧ recording_pool []
  ∧ ∃ result w' pool' sched',
      run_with sched SyncManager.startSync (fresh_world, [])
        = (Return result, (w', pool'), sched')
      ∧ lastSyncResult result = "success"
      ∧ isSyncing w' = false
      ∧ syncVersion w' ≠ 0%Z
      ∧ (sched = [] →
         result = mkSyncResult (readings fresh_world (reads fresh_world))
                               "success"
         ∧ w' = mkWorld false (tempQueue fresh_world)
                  (mkStorage
                     (Some (readings fresh_world (S (reads fresh_world))))
                     (st_pendingChanges (storage fresh_world))
                     (st_bookmarks (storage fresh_world)))
                  true (readings fresh_world) (S (S (reads fresh_world)))
                  (log fresh_world
                     ++ [InfoSyncAll;
                         InfoSyncAllStart
                           (size (st_bookmarks (storage fresh_world)));
                         InfoSyncAllDone])
         ∧ pool' = []).
Proof.
  assert (mutation_schedule
            [[Spawn (CallRecordBookmarkChange (One bookmark_a) false)];
             [Resume 0];
             [Spawn (CallAddChange (One bookmark_b) true); Resume 0]])
    as Hsched by (repeat constructor).
  assert (recording_pool []) as Hpool by constructor.
  split; [reflexivity|]. split; [reflexivity|]. split; [reflexivity|].
  split; [exact wall_clock_nonzero|]. split; [exact Hsched|].
  split; [exact Hpool|].
  exact (proj2 (proj2
    (startSync_first_sync
       [[Spawn (CallRecordBookmarkChange (One bookmark_a) false)];
        [Resume 0];
        [Spawn (CallAddChange (One bookmark_b) true); Resume 0]]
       fresh_world []))
    eq_refl eq_refl eq_refl wall_clock_nonzero Hsched Hpool).
Defined.

(** ** Single flight *)

Lemma syncChange_busy sched s :
  isSyncing s.1 = true →
  run_with sched SyncManager.syncChange s = (Throw AlreadySyncing, s, sched).
Proof.
  intros Hs. destruct s as [w pool]. unfold SyncManager.syncChange.
  rewrite run_with_bind, run_with_read. simpl in Hs. by rewrite Hs.
Qed.

Lemma syncAllLocalBookmarks_busy sched s :
  isSyncing s.1 = true →
  run_with sched SyncManager.syncAllLocalBookmarks s
  = (Throw AlreadySyncing,
     (add_log WarnSyncAllBusy (add_log InfoSyncAll s.1), s.2), sched).
Proof.
  intros Hs. destruct s as [w pool]. unfold SyncManager.syncAllLocalBookmarks.
  rewrite run_with_bind, run_with_logger, run_with_bind, run_with_read.
  simpl in Hs. change (isSyncing (add_log InfoSyncAll w)) with (isSyncing w).
  by rewrite Hs.
Qed.

(** What [startSync] does when the flag is set once its read of the
    version has completed. *)
Lemma startSync_busy sched s :
  let s2 := perform_all (next_batch (tail sched))
              (perform_all (next_batch sched) s) in
  let w2 := if decide (syncVersion s.1 = 0%Z)
            then add_log WarnSyncAllBusy (add_log InfoSyncAll s2.1)
            else s2.1 in
  isSyncing s2.1 = true →
  run_with sched SyncManager.startSync s
  = (Throw AlreadySyncing,
     perform_all (next_batch (tail (tail sched))) (w2, s2.2),
     tail (tail (tail sched))).
Proof.
  intros s2 w2 Hs. rewrite startSync_dispatch. fold s2. subst w2.
  rewrite run_with_await. case_decide.
  - by rewrite syncAllLocalBookmarks_busy.
  - rewrite syncChange_busy by done. by destruct s2.
Qed.

(** C2 does not extend to every [startSync].  An incremental pass is
    pending at its last suspension, the flush of its [finally] block:
    [isSyncing] is true.  [startSync] is invoked in that state; while it
    waits for the persisted version the pending pass resumes and releases
    the flag.  [startSync] then enters a pass of its own and returns a
    success result, having written a new SyncVersion. *)
Lemma startSync_succeeds_when_invoked_while_syncing :
  let s := perform_all [Spawn CallSyncChange; Resume 0; Resume 0; Resume 0;
                        Resume 0; Resume 0; Resume 0; Resume 0; Resume 0]
             (synced_world, []) in
  let r := run_with [[Resume 0]] SyncManager.startSync s in
  isSyncing s.1 = true
  ∧ syncVersion s.1 = 1700000000001%Z
  ∧ r.1.1 = Return (mkSyncResult 1700000000002 "success")
  ∧ r.1.1 ≠ Throw AlreadySyncing
  ∧ r.1.2.2 = [Settle (Return tt)]
  ∧ isSyncing r.1.2.1 = false
  ∧ syncVersion r.1.2.1 = 1700000000003%Z.
Proof. cbv zeta. repeat split; try (vm_compute; reflexivity). done. Qed.

(** C2: in every state in which [isSyncing] is true, under every
    schedule, [syncChange] and [syncAllLocalBookmarks] fail at once with
    AlreadySyncing, before any suspension, and leave the flag, the
    persisted SyncVersion and the durable PendingChangeSet as they are
    ([syncAllLocalBookmarks] adds two log entries).  [startSync] fails
    with AlreadySyncing whenever the flag is true once its read of the
    version has completed, and then the call itself has written neither
    the flag nor the store; this is the case when only mutations are
    recorded meanwhile, and when it runs alone. *)
Theorem sync_refused_while_syncing sched w pool :
  isSyncing w = true →
  let busy := add_log WarnSyncAllBusy (add_log InfoSyncAll w) in
  (run_with sched SyncManager.syncChange (w, pool)
     = (Throw AlreadySyncing, (w, pool), sched)
   ∧ run_with sched SyncManager.syncAllLocalBookmarks (w, pool)
     = (Throw AlreadySyncing, (busy, pool), sched)
   ∧ isSyncing busy = true
   ∧ syncVersion busy = syncVersion w
   ∧ pendingChanges busy = pendingChanges w)
  ∧ (let s2 := perform_all (next_batch (tail sched))
                 (perform_all (next_batch sched) (w, pool)) in
     let w2 := if decide (syncVersion w = 0%Z)
               then add_log WarnSyncAllBusy (add_log InfoSyncAll s2.1)
               else s2.1 in
     isSyncing s2.1 = true →
     run_with sched SyncManager.startSync (w, pool)
       = (Throw AlreadySyncing,
          perform_all (next_batch (tail (tail sched))) (w2, s2.2),
          tail (tail (tail sched)))
     ∧ isSyncing w2 = true
     ∧ syncVersion w2 = syncVersion s2.1
     ∧ pendingChanges w2 = pendingChanges s2.1)
  ∧ (mutation_schedule sched →
     recording_pool pool →
     ∃ s' sched',
       run_with sched SyncManager.startSync (w, pool)
         = (Throw AlreadySyncing, s', sched')
       ∧ isSyncing s'.1 = true
       ∧ syncVersion s'.1 = syncVersion w)
  ∧ (let r := run SyncManager.startSync w in
     r.1 = Throw AlreadySyncing
     ∧ isSyncing r.2 = true
     ∧ syncVersion r.2 = syncVersion w
     ∧ pendingChanges r.2 = pendingChanges w).
Proof.
  intros Hs busy. split; [|split; [|split]].
  - split; [by apply syncChange_busy|].
    split; [by apply (syncAllLocalBookmarks_busy sched (w, pool))|done].
  - intros s2 w2 Hs2. split; [by apply (startSync_busy sched (w, pool))|].
    subst w2. by case_decide.
  - intros Hsched Hpool.
    destruct (suspension_recording sched w pool Hsched Hpool) as [H1 Hp1].
    destruct (perform_all (next_batch sched) (w, pool)) as [w1 pool1] eqn:E1.
    destruct (suspension_recording (tail sched) w1 pool1
                (mutation_schedule_tail _ Hsched) Hp1) as [H2 Hp2].
    destruct (perform_all (next_batch (tail sched)) (w1, pool1))
      as [w2 pool2] eqn:E2.
    simpl in H1, H2, Hp1, Hp2.
    assert (isSyncing w2 = true) as Hs2.
    { destruct H1 as (? & _), H2 as (? & _). congruence. }
    pose proof (startSync_busy sched (w, pool)) as Hrun.
    cbv zeta in Hrun. rewrite E1, E2 in Hrun. specialize (Hrun Hs2).
    rewrite Hrun. eexists _, _. split; [done|].
    set (w2' := if decide (syncVersion (w, pool).1 = 0%Z)
                then add_log WarnSyncAllBusy (add_log InfoSyncAll (w2, pool2).1)
                else (w2, pool2).1).
    assert (keeps_sync_state w2 w2') as H2'.
    { subst w2'. case_decide; by repeat split. }
    destruct (suspension_recording (tail (tail sched)) w2' pool2
                (mutation_schedule_tail _ (mutation_schedule_tail _ Hsched))
                Hp2) as [H3 _].
    simpl snd.
    destruct H1 as (Hf1 & _ & _ & Hv1 & _), H2 as (Hf2 & _ & _ & Hv2 & _),
      H2' as (Hf2' & _ & _ & Hv2' & _), H3 as (Hf3 & _ & _ & Hv3 & _).
    unfold syncVersion. rewrite Hv3, Hv2', Hv2, Hv1. split; congruence.
  - cbv zeta. rewrite run_startSync.
    pose proof (syncChange_busy [] (w, []) Hs) as H1.
    pose proof (syncAllLocalBookmarks_busy [] (w, []) Hs) as H2.
    apply run_of_run_with in H1, H2.
    case_decide; [by rewrite H2|by rewrite H1].
Qed.

Lemma sync_refused_while_syncing_witness :
  let w := set_isSyncing true synced_world in
  let sched := [[Spawn (CallRecordBookmarkChange (One bookmark_a) false)];
                [Resume 0]] in
  let pool : list (Async unit) := [] in
  let busy := add_log WarnSyncAllBusy (add_log InfoSyncAll w) in
  isSyncing w = true
  ∧ (run_with sched SyncManager.syncChange (w, pool)
       = (Throw AlreadySyncing, (w, pool), sched)
     ∧ run_with sched SyncManager.syncAllLocalBookmarks (w, pool)
       = (Throw AlreadySyncing, (busy, pool), sched)
     ∧ isSyncing busy = true
     ∧ syncVersion busy = syncVersion w
     ∧ pendingChanges busy = pendingChanges w)
  ∧ (let s2 := perform_all (next_batch (tail sched))
                 (perform_all (next_batch sched) (w, pool)) in
     let w2 := if decide (syncVersion w = 0%Z)
               then add_log WarnSyncAllBusy (add_log InfoSyncAll s2.1)
               else s2.1 in
     isSyncing s2.1 = true →
     run_with sched SyncManager.startSync (w, pool)
       = (Throw AlreadySyncing,
          perform_all (next_batch (tail (tail sched))) (w2, s2.2),
          tail (tail (tail sched)))
     ∧ isSyncing w2 = true
     ∧ syncVersion w2 = syncVersion s2.1
     ∧ pendingChanges w2 = pendingChanges s2.1)
  ∧ (mutation_schedule sched →
     recording_pool pool →
     ∃ s' sched',
       run_with sched SyncManager.startSync (w, pool)
         = (Throw AlreadySyncing, s', sched')
       ∧ isSyncing s'.1 = true
       ∧ syncVersion s'.1 = syncVersion w)
  ∧ (let r := run SyncManager.startSync w in
     r.1 = Throw AlreadySyncing
     ∧ isSyncing r.2 = true
     ∧ syncVersion r.2 = syncVersion w
     ∧ pendingChanges r.2 = pendingChanges w).
Proof.
  split; [reflexivity|].
  apply (sync_refused_while_syncing
           [[Spawn (CallRecordBookmarkChange (One bookmark_a) false)];
            [Resume 0]]
           (set_isSyncing true synced_world) []).
  reflexivity.
Defined.

(** ** The flush *)

Lemma size_pos_non_empty (q : gmap string ChangeRecord) :
  Nat.ltb 0 (size q) = bool_decide (q ≠ ∅).
Proof.
  destruct (decide (q = ∅)) as [->|Hq].
  - by rewrite map_size_empty.
  - rewrite bool_decide_eq_true_2 by done. apply Nat.ltb_lt.
    apply map_size_non_empty_iff in Hq. lia.
Qed.

Lemma run_with_mergeTempQueueToStorage sched w pool :
  run_with sched LocalChangeManager.mergeTempQueueToStorage (w, pool)
  = if decide (tempQueue w = ∅) then (Return tt, (w, pool), sched)
    else
      let s1 := perform_all (next_batch sched)
                  ((LocalStorageMgr_set_pendingChanges
                      (delete "__proto__" (tempQueue w))
                      (add_log (InfoMergeQueue (size (tempQueue w))) w)).2,
                   pool) in
      (Return tt, (set_tempQueue ∅ s1.1, s1.2), tail sched).
Proof.
  unfold LocalChangeManager.mergeTempQueueToStorage.
  rewrite run_with_bind, run_with_read, size_pos_non_empty.
  rewrite assign_entries_map_to_list.
  case_decide as Hq.
  - by rewrite bool_decide_eq_false_2 by (by intros H; apply H).
  - rewrite bool_decide_eq_true_2 by done.
    rewrite run_with_bind, run_with_logger, run_with_bind, run_with_await,
      run_with_call.
    cbv zeta.
    by destruct (perform_all _ _) as [w1 pool1].
Qed.

Lemma run_mergeTempQueueToStorage w :
  run LocalChangeManager.mergeTempQueueToStorage w
  = if decide (tempQueue w = ∅) then (Return tt, w)
    else (Return tt,
          set_tempQueue ∅
            (LocalStorageMgr_set_pendingChanges
               (delete "__proto__" (tempQueue w))
               (add_log (InfoMergeQueue (size (tempQueue w))) w)).2).
Proof.
  pose proof (run_with_mergeTempQueueToStorage [] w []) as H.
  case_decide; by apply run_of_run_with in H.
Qed.

Lemma run_with_syncChange_finally sched w pool :
  run_with sched SyncManager.syncChange_finally (w, pool)
  = if decide (tempQueue w = ∅)
    then
      let s1 := perform_all (next_batch sched) (w, pool) in
      (Return tt, (set_isSyncing false s1.1, s1.2), tail sched)
    else
      let s1 := perform_all (next_batch sched)
                  ((LocalStorageMgr_set_pendingChanges
                      (delete "__proto__" (tempQueue w))
                      (add_log (InfoMergeQueue (size (tempQueue w))) w)).2,
                   pool) in
      let s2 := perform_all (next_batch (tail sched))
                  (set_tempQueue ∅ s1.1, s1.2) in
      (Return tt, (set_isSyncing false s2.1, s2.2), tail (tail sched)).
Proof.
  unfold SyncManager.syncChange_finally.
  rewrite run_with_bind, run_with_await, run_with_mergeTempQueueToStorage.
  case_decide; cbv zeta.
  - by destruct (perform_all _ _) as [w1 pool1].
  - cbv beta iota.
    by destruct (perform_all (next_batch (tail sched)) _) as [w1 pool1].
Qed.

Lemma syncChange_finally_returns sched s :
  ∃ s' sched',
    run_with sched SyncManager.syncChange_finally s = (Return tt, s', sched')
    ∧ isSyncing s'.1 = false.
Proof.
  destruct s as [w pool]. rewrite run_with_syncChange_finally.
  case_decide; by eexists _, _.
Qed.

(** ** Offline *)

Lemma syncChange_try_offline sched w pool :
  onLine w = false →
  run_with sched SyncManager.syncChange_try (w, pool)
  = let s1 := perform_all (next_batch sched) (w, pool) in
    (Throw NetworkUnavailable, (add_log WarnOffline s1.1, s1.2), tail sched).
Proof.
  intros Ho. unfold SyncManager.syncChange_try.
  rewrite run_with_bind, run_with_await, run_with_canSync, Ho.
  cbv zeta. by destruct (perform_all _ _) as [w1 pool1].
Qed.

Lemma syncAllLocalBookmarks_try_offline sched w pool :
  onLine w = false →
  run_with sched SyncManager.syncAllLocalBookmarks_try (w, pool)
  = (Throw NetworkUnavailable, perform_all (next_batch sched) (w, pool),
     tail sched).
Proof.
  intros Ho. unfold SyncManager.syncAllLocalBookmarks_try.
  by rewrite run_with_bind, run_with_await, run_with_canSync, Ho.
Qed.

Lemma syncChange_entered sched w pool :
  isSyncing w = false →
  run_with sched SyncManager.syncChange (w, pool)
  = run_with sched
      (try_finally
         (try_catch SyncManager.syncChange_try
            (λ error, logger (ErrorSyncChange error);; throw error))
         SyncManager.syncChange_finally)
      (set_isSyncing true w, pool).
Proof.
  intros Hs. unfold SyncManager.syncChange.
  rewrite run_with_bind, run_with_read, Hs.
  by rewrite run_with_bind, run_with_modify.
Qed.

Lemma syncAllLocalBookmarks_entered sched w pool :
  isSyncing w = false →
  run_with sched SyncManager.syncAllLocalBookmarks (w, pool)
  = run_with sched
      (try_finally
         (try_catch SyncManager.syncAllLocalBookmarks_try
            (λ error, logger (ErrorSyncAll error);; throw error))
         SyncManager.syncAllLocalBookmarks_finally)
      (set_isSyncing true (add_log InfoSyncAll w), pool).
Proof.
  intros Hs. unfold SyncManager.syncAllLocalBookmarks.
  rewrite run_with_bind, run_with_logger, run_with_bind, run_with_read.
  change (isSyncing (add_log InfoSyncAll w)) with (isSyncing w). rewrite Hs.
  by rewrite run_with_bind, run_with_modify.
Qed.

Lemma syncAllLocalBookmarks_offline sched w pool :
  isSyncing w = false →
  onLine w = false →
  run_with sched SyncManager.syncAllLocalBookmarks (w, pool)
  = let s1 := perform_all (next_batch sched)
                (set_isSyncing true (add_log InfoSyncAll w), pool) in
    (Throw NetworkUnavailable,
     (set_isSyncing false (add_log (ErrorSyncAll NetworkUnavailable) s1.1),
      s1.2),
     tail sched).
Proof.
  intros Hs Ho. rewrite syncAllLocalBookmarks_entered by done.
  rewrite run_with_try_finally, run_with_try_catch.
  rewrite syncAllLocalBookmarks_try_offline by done.
  cbv zeta. by destruct (perform_all _ _) as [w1 pool1].
Qed.

Lemma syncChange_offline sched w pool :
  isSyncing w = false →
  onLine w = false →
  run_with sched SyncManager.syncChange (w, pool)
  = let s1 := perform_all (next_batch sched) (set_isSyncing true w, pool) in
    match run_with (tail sched) SyncManager.syncChange_finally
            (add_log (ErrorSyncChange NetworkUnavailable)
               (add_log WarnOffline s1.1), s1.2) with
    | (_, s', sched') => (Throw NetworkUnavailable, s', sched')
    end.
Proof.
  intros Hs Ho. rewrite syncChange_entered by done.
  rewrite run_with_try_finally, run_with_try_catch.
  rewrite syncChange_try_offline by done.
  cbv zeta. destruct (perform_all _ _) as [w1 pool1].
  rewrite run_with_bind, run_with_logger, run_with_throw.
  simpl fst. simpl snd.
  destruct (syncChange_finally_returns (tail sched)
              (add_log (ErrorSyncChange NetworkUnavailable)
                 (add_log WarnOffline w1), pool1))
    as (s' & sched' & -> & _).
  done.
Qed.

(** C5: when [navigator.onLine] is false at the entry of a pass, [canSync]
    returns false and the pass fails with NetworkUnavailable, under every
    schedule.  At the point of failure, the [throw] in the [try] block,
    the pass has written nothing: the store is what the tasks scheduled
    during the one suspension before the throw have left, which is the
    store at entry when the pass runs alone, and has the persisted
    SyncVersion of the entry when only mutations are recorded meanwhile.
    After the exit [syncAllLocalBookmarks] has still written nothing;
    [syncChange] has written the overflow buffer, if it was not empty,
    over the durable PendingChangeSet in its [finally] block, and has left
    the SyncVersion alone. *)
Theorem offline_sync_fails_before_touching_store sched w pool :
  isSyncing w = false →
  onLine w = false →
  let s1 := perform_all (next_batch sched) (set_isSyncing true w, pool) in
  let s1' := perform_all (next_batch sched)
               (set_isSyncing true (add_log InfoSyncAll w), pool) in
  (run_with sched SyncManager.syncChange_try (set_isSyncing true w, pool)
     = (Throw NetworkUnavailable, (add_log WarnOffline s1.1, s1.2), tail sched)
   ∧ storage (add_log WarnOffline s1.1) = storage s1.1
   ∧ run_with sched SyncManager.syncAllLocalBookmarks_try
       (set_isSyncing true (add_log InfoSyncAll w), pool)
     = (Throw NetworkUnavailable, s1', tail sched))
  ∧ ((∃ s' sched',
        run_with sched SyncManager.syncChange (w, pool)
          = (Throw NetworkUnavailable, s', sched')
        ∧ isSyncing s'.1 = false)
     ∧ run_with sched SyncManager.syncAllLocalBookmarks (w, pool)
       = (Throw NetworkUnavailable,
          (set_isSyncing false
             (add_log (ErrorSyncAll NetworkUnavailable) s1'.1), s1'.2),
          tail sched))
  ∧ (mutation_schedule sched →
     recording_pool pool →
     syncVersion s1.1 = syncVersion w
     ∧ syncVersion s1'.1 = syncVersion w
     ∧ ∃ s' sched',
         run_with sched SyncManager.syncChange (w, pool)
           = (Throw NetworkUnavailable, s', sched')
         ∧ syncVersion s'.1 = syncVersion w)
  ∧ (let at_throw :=
       (run SyncManager.syncChange_try (set_isSyncing true w)).2 in
     let at_throw' :=
       (run SyncManager.syncAllLocalBookmarks_try
            (set_isSyncing true (add_log InfoSyncAll w))).2 in
     let r := run SyncManager.syncChange w in
     let r' := run SyncManager.syncAllLocalBookmarks w in
     storage at_throw = storage w
     ∧ storage at_throw' = storage w
     ∧ r.1 = Throw NetworkUnavailable
     ∧ r'.1 = Throw NetworkUnavailable
     ∧ syncVersion r.2 = syncVersion w
     ∧ storage r'.2 = storage w
     ∧ pendingChanges r.2 =
         (if decide (tempQueue w = ∅) then pendingChanges w
          else delete "__proto__" (tempQueue w))).
Proof.
  intros Hs Ho s1 s1'.
  assert (onLine (set_isSyncing true w) = false) as Ho1 by done.
  assert (onLine (set_isSyncing true (add_log InfoSyncAll w)) = false)
    as Ho2 by done.
  split; [|split; [|split]].
  - split; [by apply syncChange_try_offline|].
    split; [done|by apply syncAllLocalBookmarks_try_offline].
  - split; [|by apply syncAllLocalBookmarks_offline].
    rewrite syncChange_offline by done. cbv zeta.
    destruct (syncChange_finally_returns (tail sched)
                (add_log (ErrorSyncChange NetworkUnavailable)
                   (add_log WarnOffline
                      (perform_all (next_batch sched)
                         (set_isSyncing true w, pool)).1),
                 (perform_all (next_batch sched)
                    (set_isSyncing true w, pool)).2))
      as (s' & sched' & -> & Hs').
    by exists s', sched'.
  - intros Hsched Hpool. subst s1 s1'.
    destruct (suspension_recording sched (set_isSyncing true w) pool
                Hsched Hpool) as [(_ & _ & _ & Hv1 & _) _].
    destruct (suspension_recording sched
                (set_isSyncing true (add_log InfoSyncAll w)) pool
                Hsched Hpool) as [(_ & _ & _ & Hv1' & _) _].
    split; [by unfold syncVersion; rewrite Hv1|].
    split; [by unfold syncVersion; rewrite Hv1'|].
    destruct (holds_after_sound _ _ sched w pool Hsched Hpool
                (syncChange_holds w Hs))
      as (o & w' & pool' & sched' & Hrun & Hexit & _ & _).
    destruct Hexit as (_ & _ & _ & _ & Hout). rewrite Ho in Hout.
    destruct Hout as [-> Hv]. exists (w', pool'), sched'.
    split; [done|]. simpl fst. unfold syncVersion. by rewrite Hv.
  - cbv zeta.
    pose proof (syncChange_try_offline [] (set_isSyncing true w) [] Ho1) as Ht.
    pose proof (syncAllLocalBookmarks_try_offline []
                  (set_isSyncing true (add_log InfoSyncAll w)) [] Ho2) as Ht'.
    pose proof (syncChange_offline [] w [] Hs Ho) as Hr.
    pose proof (syncAllLocalBookmarks_offline [] w [] Hs Ho) as Hr'.
    cbv zeta in Ht, Hr, Hr'. rewrite run_with_syncChange_finally in Hr.
    apply run_of_run_with in Ht, Ht', Hr'. rewrite Ht, Ht', Hr'.
    split; [done|]. split; [done|].
    change (tempQueue _) with (tempQueue w) in Hr.
    case_decide; apply run_of_run_with in Hr; rewrite Hr; by destruct w.
Qed.

Lemma offline_sync_fails_before_touching_store_witness :
  let w := mkWorld false
             {[ url bookmark_a := mkChange 5 (convertToServerFormat bookmark_a) ]}
             (storage synced_world) false wall_clock 0 [] in
  let sched := [[Spawn (CallAddChange (One bookmark_b) true)]] in
  let pool : list (Async unit) := [] in
  let s1 := perform_all (next_batch sched) (set_isSyncing true w, pool) in
  let s1' := perform_all (next_batch sched)
               (set_isSyncing true (add_log InfoSyncAll w), pool) in
  isSyncing w = false
  ∧ onLine w = false
  ∧ (run_with sched SyncManager.syncChange_try (set_isSyncing true w, pool)
       = (Throw NetworkUnavailable, (add_log WarnOffline s1.1, s1.2),
          tail sched)
     ∧ storage (add_log WarnOffline s1.1) = storage s1.1
     ∧ run_with sched SyncManager.syncAllLocalBookmarks_try
         (set_isSyncing true (add_log InfoSyncAll w), pool)
       = (Throw NetworkUnavailable, s1', tail sched))
  ∧ ((∃ s' sched',
        run_with sched SyncManager.syncChange (w, pool)
          = (Throw NetworkUnavailable, s', sched')
        ∧ isSyncing s'.1 = false)
     ∧ run_with sched SyncManager.syncAllLocalBookmarks (w, pool)
       = (Throw NetworkUnavailable,
          (set_isSyncing false
             (add_log (ErrorSyncAll NetworkUnavailable) s1'.1), s1'.2),
          tail sched))
  ∧ (mutation_schedule sched →
     recording_pool pool →
     syncVersion s1.1 = syncVersion w
     ∧ syncVersion s1'.1 = syncVersion w
     ∧ ∃ s' sched',
         run_with sched SyncManager.syncChange (w, pool)
           = (Throw NetworkUnavailable, s', sched')
         ∧ syncVersion s'.1 = syncVersion w)
  ∧ (let at_throw :=
       (run SyncManager.syncChange_try (set_isSyncing true w)).2 in
     let at_throw' :=
       (run SyncManager.syncAllLocalBookmarks_try
            (set_isSyncing true (add_log InfoSyncAll w))).2 in
     let r := run SyncManager.syncChange w in
     let r' := run SyncManager.syncAllLocalBookmarks w in
     storage at_throw = storage w
     ∧ storage at_throw' = storage w
     ∧ r.1 = Throw NetworkUnavailable
     ∧ r'.1 = Throw NetworkUnavailable
     ∧ syncVersion r.2 = syncVersion w
     ∧ storage r'.2 = storage w
     ∧ pendingChanges r.2 =
         (if decide (tempQueue w = ∅) then pendingChanges w
          else delete "__proto__" (tempQueue w))).
Proof.
  split; [reflexivity|]. split; [reflexivity|].
  apply (offline_sync_fails_before_touching_store
           [[Spawn (CallAddChange (One bookmark_b) true)]]
           (mkWorld false
              {[ url bookmark_a := mkChange 5 (convertToServerFormat bookmark_a) ]}
              (storage synced_world) false wall_clock 0 [])
           []).
  - reflexivity.
  - reflexivity.
Defined.

(** ** The flush on exit *)

(** C1: the flush on exit is missing from the full sync.  A client that has
    synced before runs [syncAllLocalBookmarks]; while the pass waits for
    the bookmarks the application calls [recordBookmarkChange], whose
    change is buffered in [tempQueue].  The pass succeeds and exits with
    [isSyncing] false, the change still in [tempQueue] and nothing in the
    durable PendingChangeSet.  [syncChange] run on the same input exits
    with [tempQueue] empty and the change in the durable set. *)
Theorem syncAllLocalBookmarks_exits_without_flush :
  let sched := [[]; [Spawn (CallRecordBookmarkChange (One bookmark_a') true)];
                [Resume 0]; [Resume 0]; [Resume 0]] in
  let buffered := mkChange 1700000000001 (convertToServerFormat bookmark_a') in
  let full :=
    run_with sched SyncManager.syncAllLocalBookmarks (synced_world, []) in
  let incremental :=
    run_with sched SyncManager.syncChange (synced_world, []) in
  (full.1.1 = Return (mkSyncResult 1700000000000 "success")
   ∧ isSyncing full.1.2.1 = false
   ∧ tempQueue full.1.2.1 = {[ "https://example.com" := buffered ]}
   ∧ tempQueue full.1.2.1 ≠ ∅
   ∧ pendingChanges full.1.2.1 = ∅)
  ∧ (incremental.1.1 = Return (mkSyncResult 1700000000000 "success")
     ∧ isSyncing incremental.1.2.1 = false
     ∧ tempQueue incremental.1.2.1 = ∅
     ∧ pendingChanges incremental.1.2.1
       = {[ "https://example.com" := buffered ]}).
Proof.
  cbv zeta. repeat split; try (vm_compute; reflexivity).
  intros H. apply (f_equal (λ q, q !! "https://example.com")) in H.
  vm_compute in H. discriminate H.
Qed.

(** ** Sample runs *)

(** A synced client with three pending changes: [startSync] takes the
    incremental pass, clears the durable set and writes a new version. *)
Example startSync_incremental_run :
  let w := record_all [(Many [bookmark_a; bookmark_b], false);
                       (One (mkBookmark "3" "https://stdpp.example" "stdpp"
                                        None None 12 12), false)]
                      synced_world in
  let r := run SyncManager.startSync w in
  size (pendingChanges w) = 3
  ∧ r.1 = Return (mkSyncResult 1700000000003 "success")
  ∧ isSyncing r.2 = false
  ∧ size (pendingChanges r.2) = 0
  ∧ syncVersion r.2 = 1700000000004%Z
  ∧ log r.2 = log w ++ [InfoSyncChangeStart 3; InfoSyncChangeDone].
Proof. cbv zeta. repeat split; vm_compute; reflexivity. Qed.

(** A bookmark recorded twice during an incremental pass: the buffer keeps
    the second change only, and the durable set holds it after the pass. *)
Example recorded_twice_during_pass :
  let sched := [[Spawn (CallAddChange (One bookmark_a) false)];
                [Spawn (CallAddChange (One bookmark_a') false)]] in
  let r := run_with sched SyncManager.syncChange (synced_world, []) in
  r.1.1 = Return (mkSyncResult 1700000000001 "success")
  ∧ tempQueue r.1.2.1 = ∅
  ∧ pendingChanges r.1.2.1 =
      {[ "https://example.com" :=
           mkChange 1700000000002 (convertToServerFormat bookmark_a') ]}.
Proof. cbv zeta. repeat split; vm_compute; reflexivity. Qed.

(** A never-synced client: the first [startSync] is a full sync. *)
Example startSync_full_run :
  let r := run SyncManager.startSync fresh_world in
  r.1 = Return (mkSyncResult 1700000000000 "success")
  ∧ isSyncing r.2 = false
  ∧ syncVersion r.2 = 1700000000001%Z
  ∧ log r.2 = [InfoSyncAll; InfoSyncAllStart 2; InfoSyncAllDone].
Proof. cbv zeta. repeat split; vm_compute; reflexivity. Qed.

(** ** Further properties of the ledger *)

(** X1: [mergeTempQueueToStorage] returns normally and leaves the queue
    empty.  With an empty queue it changes nothing, not even the log; with
    a non-empty queue the durable PendingChangeSet becomes a copy of the
    queue without a ["__proto__"] key, which the plain object it is
    copied into does not take (what was durable before is gone), and the
    flag, the persisted SyncVersion and the bookmarks stay as they
    were. *)
Theorem mergeTempQueueToStorage_replaces_durable w :
  let r := run LocalChangeManager.mergeTempQueueToStorage w in
  r.1 = Return tt
  ∧ tempQueue r.2 = ∅
  ∧ isSyncing r.2 = isSyncing w
  ∧ st_lastSyncVersion (storage r.2) = st_lastSyncVersion (storage w)
  ∧ st_bookmarks (storage r.2) = st_bookmarks (storage w)
  ∧ (if decide (tempQueue w = ∅) then r.2 = w
     else pendingChanges r.2 = delete "__proto__" (tempQueue w)
          ∧ pendingChanges r.2 !! "__proto__" = None
          ∧ (tempQueue w !! "__proto__" = None →
             pendingChanges r.2 = tempQueue w)
          ∧ log r.2 = log w ++ [InfoMergeQueue (size (tempQueue w))]).
Proof.
  cbv zeta. rewrite run_mergeTempQueueToStorage.
  case_decide as Hq; [by repeat split|].
  unfold pendingChanges. simpl.
  split; [done|]. split; [done|]. split; [done|]. split; [done|].
  split; [done|]. split; [done|]. split; [apply lookup_delete_eq|].
  split; [|done]. intros Hk. by apply delete_id.
Qed.

Lemma mergeTempQueueToStorage_replaces_durable_witness :
  let w := mkWorld true
             {[ url bookmark_a := mkChange 5 (convertToServerFormat bookmark_a) ]}
             (storage synced_world) true wall_clock 0 [] in
  let r := run LocalChangeManager.mergeTempQueueToStorage w in
  tempQueue w !! "__proto__" = None
  ∧ r.1 = Return tt
  ∧ tempQueue r.2 = ∅
  ∧ isSyncing r.2 = isSyncing w
  ∧ st_lastSyncVersion (storage r.2) = st_lastSyncVersion (storage w)
  ∧ st_bookmarks (storage r.2) = st_bookmarks (storage w)
  ∧ (if decide (tempQueue w = ∅) then r.2 = w
     else pendingChanges r.2 = delete "__proto__" (tempQueue w)
          ∧ pendingChanges r.2 !! "__proto__" = None
          ∧ (tempQueue w !! "__proto__" = None →
             pendingChanges r.2 = tempQueue w)
          ∧ log r.2 = log w ++ [InfoMergeQueue (size (tempQueue w))]).
Proof.
  split; [reflexivity|].
  exact (mergeTempQueueToStorage_replaces_durable
           (mkWorld true
              {[ url bookmark_a := mkChange 5 (convertToServerFormat bookmark_a) ]}
              (storage synced_world) true wall_clock 0 [])).
Defined.

Lemma run_removeChange key w :
  run (LocalChangeManager.removeChange key) w
  = (Return tt,
     (LocalStorageMgr_set_pendingChanges (delete key (pendingChanges w)) w).2).
Proof. done. Qed.

(** X2: [removeChange] works on the durable set only.  After
    [addChange(b)] followed by [removeChange(b.url)] the durable set is
    what it was without the key [b.url]; outside a sync pass the overflow
    buffer is untouched, but during a sync pass the change that
    [addChange] buffered is still in [tempQueue]. *)
Theorem addChange_then_removeChange b isDeleted w :
  let r := run (LocalChangeManager.addChange (One b) isDeleted;;
                LocalChangeManager.removeChange (url b)) w in
  r.1 = Return tt
  ∧ pendingChanges r.2 = delete (url b) (pendingChanges w)
  ∧ tempQueue r.2 =
      (if isSyncing w
       then <[url b := mkChange (readings w (reads w)) (convertToServerFormat b)]>
              (tempQueue w)
       else tempQueue w)
  ∧ isSyncing r.2 = isSyncing w
  ∧ st_lastSyncVersion (storage r.2) = st_lastSyncVersion (storage w).
Proof.
  cbv zeta. rewrite run_bind.
  destruct (addChange_effect (One b) isDeleted w)
    as (Ho & Hq & Hp & _ & Hs & _ & Hv & _).
  destruct (run (LocalChangeManager.addChange (One b) isDeleted) w) as [o w1].
  simpl in Ho, Hq, Hp, Hs, Hv. subst o. rewrite run_removeChange.
  unfold pendingChanges at 1. simpl.
  split; [done|]. split; [|split; [|done]].
  - rewrite Hp. destruct (isSyncing w); [done|].
    unfold obj_set. case_decide as Hk.
    + destruct Hk as [_ Hk]. by rewrite delete_id.
    + by rewrite delete_insert_eq.
  - rewrite Hq. by destruct (isSyncing w).
Qed.

Lemma run_getChangeCount w :
  run LocalChangeManager.getChangeCount w = (Return (size (pendingChanges w)), w).
Proof. done. Qed.

(** X3: [getChangeCount] counts the durable set only.  Asked right after
    [addChange(b)], it returns the old count during a sync pass (the change
    is in the buffer), and outside a pass the old count if [b.url] already
    had a pending change or is ["__proto__"], under which nothing is
    stored, and one more otherwise. *)
Theorem getChangeCount_after_addChange b isDeleted w :
  (run (LocalChangeManager.addChange (One b) isDeleted;;
        LocalChangeManager.getChangeCount) w).1
  = Return (if isSyncing w then size (pendingChanges w)
            else if decide (is_Some (pendingChanges w !! url b))
                 then size (pendingChanges w)
                 else if decide (url b = "__proto__")
                      then size (pendingChanges w)
                      else S (size (pendingChanges w))).
Proof.
  rewrite run_bind.
  destruct (addChange_effect (One b) isDeleted w) as (Ho & _ & Hp & _).
  destruct (run (LocalChangeManager.addChange (One b) isDeleted) w) as [o w1].
  simpl in Ho, Hp. subst o. rewrite run_getChangeCount. simpl. f_equal.
  rewrite Hp. destruct (isSyncing w); [done|].
  unfold obj_set.
  destruct (decide (is_Some (pendingChanges w !! url b))) as [Hk|Hk].
  - rewrite decide_False
      by (intros [_ Hn]; rewrite Hn in Hk; by destruct Hk).
    by apply map_size_insert_Some.
  - apply eq_None_not_Some in Hk.
    destruct (decide (url b = "__proto__")) as [Hu|Hu].
    + by rewrite decide_True by done.
    + rewrite decide_False by (by intros [? _]).
      by apply map_size_insert_None.
Qed.

(** ** Further properties of the coordinator *)

Lemma run_syncChange_online w :
  isSyncing w = false →
  onLine w = true →
  let r := run SyncManager.syncChange w in
  r.1 = Return (mkSyncResult (readings w (reads w)) "success")
  ∧ isSyncing r.2 = false
  ∧ tempQueue r.2 = ∅
  ∧ storage r.2 = mkStorage (Some (readings w (S (reads w))))
                    (Some (delete "__proto__" (tempQueue w)))
                    (st_bookmarks (storage w))
  ∧ reads r.2 = S (S (reads w))
  ∧ readings r.2 = readings w
  ∧ onLine r.2 = true.
Proof.
  intros Hs Ho. cbv zeta.
  unfold SyncManager.syncChange. rewrite run_bind.
  change (run (read isSyncing) w) with (Return (isSyncing w), w).
  rewrite Hs. cbv beta iota. rewrite run_bind.
  change (run (modify ?f) w) with (Return tt, f w). cbv beta iota.
  rewrite run_try_finally, run_try_catch.
  assert (run SyncManager.syncChange_try (set_isSyncing true w)
          = (Return (mkSyncResult (readings w (reads w)) "success"),
             add_log InfoSyncChangeDone
               (set_storage
                  (mkStorage (Some (readings w (S (reads w)))) (Some ∅)
                     (st_bookmarks (storage w)))
                  (set_reads (S (S (reads w)))
                     (add_log
                        (InfoSyncChangeStart (size (pendingChanges w)))
                        (set_isSyncing true w))))))
    as ->.
  { destruct w as [s q st o r n lg]. simpl in Hs, Ho. subst s o.
    unfold SyncManager.syncChange_try. simpl.
    unfold pendingChanges. simpl. by rewrite length_Object_values. }
  pose proof (run_with_syncChange_finally []
    (add_log InfoSyncChangeDone
       (set_storage
          (mkStorage (Some (readings w (S (reads w)))) (Some ∅)
             (st_bookmarks (storage w)))
          (set_reads (S (S (reads w)))
             (add_log (InfoSyncChangeStart (size (pendingChanges w)))
                (set_isSyncing true w))))) []) as Hfin.
  change (tempQueue (add_log _ _)) with (tempQueue w) in Hfin.
  destruct (decide (tempQueue w = ∅)) as [Hq|Hq];
    apply run_of_run_with in Hfin; rewrite Hfin; simpl.
  - rewrite Hq, delete_empty. by rewrite Ho.
  - by rewrite Ho.
Qed.

(** X4: a successful incremental sync hands the buffer over.  When no pass
    is active and the network is reachable, [syncChange] returns success
    whatever mutations are recorded meanwhile, with a reading of the clock
    as [lastSync]; it ends with [isSyncing] false, the persisted
    SyncVersion a reading of the clock and the bookmarks untouched.  Run
    alone, it ends with [tempQueue] empty and with the durable
    PendingChangeSet holding exactly the buffer it started with, less a
    ["__proto__"] key: the changes that were pending before the pass are
    gone. *)
Theorem syncChange_success_hands_over_buffer sched w pool :
  isSyncing w = false →
  onLine w = true →
  (mutation_schedule sched →
   recording_pool pool →
   ∃ v v' w' pool' sched',
     run_with sched SyncManager.syncChange (w, pool)
       = (Return (mkSyncResult (readings w v) "success"), (w', pool'), sched')
     ∧ isSyncing w' = false
     ∧ st_lastSyncVersion (storage w') = Some (readings w v')
     ∧ st_bookmarks (storage w') = st_bookmarks (storage w))
  ∧ (let r := run SyncManager.syncChange w in
     r.1 = Return (mkSyncResult (readings w (reads w)) "success")
     ∧ isSyncing r.2 = false
     ∧ tempQueue r.2 = ∅
     ∧ st_lastSyncVersion (storage r.2) = Some (readings w (S (reads w)))
     ∧ st_bookmarks (storage r.2) = st_bookmarks (storage w)
     ∧ pendingChanges r.2 = delete "__proto__" (tempQueue w)).
Proof.
  intros Hs Ho. split.
  - intros Hsched Hpool.
    destruct (holds_after_sound _ _ sched w pool Hsched Hpool
                (syncChange_holds w Hs))
      as (o & w' & pool' & sched' & Hrun & Hexit & _ & _).
    destruct Hexit as (Hs' & _ & _ & Hb & Hout). rewrite Ho in Hout.
    destruct Hout as (v & v' & -> & Hv').
    by exists v, v', w', pool', sched'.
  - destruct (run_syncChange_online w Hs Ho) as (Hr & Hs' & Hq & Hst & _).
    cbv zeta. unfold pendingChanges. rewrite Hst. by repeat split.
Qed.

Lemma syncChange_success_hands_over_buffer_witness :
  let w := mkWorld false
             {[ url bookmark_a := mkChange 5 (convertToServerFormat bookmark_a) ]}
             (storage synced_world) true wall_clock 0 [] in
  let sched := [[Spawn (CallRecordBookmarkChange (One bookmark_b) false)];
                [Resume 0]; [Resume 0]; [Resume 0]] in
  let pool : list (Async unit) := [] in
  isSyncing w = false
  ∧ onLine w = true
  ∧ (mutation_schedule sched →
     recording_pool pool →
     ∃ v v' w' pool' sched',
       run_with sched SyncManager.syncChange (w, pool)
         = (Return (mkSyncResult (readings w v) "success"), (w', pool'), sched')
       ∧ isSyncing w' = false
       ∧ st_lastSyncVersion (storage w') = Some (readings w v')
       ∧ st_bookmarks (storage w') = st_bookmarks (storage w))
  ∧ (let r := run SyncManager.syncChange w in
     r.1 = Return (mkSyncResult (readings w (reads w)) "success")
     ∧ isSyncing r.2 = false
     ∧ tempQueue r.2 = ∅
     ∧ st_lastSyncVersion (storage r.2) = Some (readings w (S (reads w)))
     ∧ st_bookmarks (storage r.2) = st_bookmarks (storage w)
     ∧ pendingChanges r.2 = delete "__proto__" (tempQueue w)).
Proof.
  split; [reflexivity|]. split; [reflexivity|].
  apply (syncChange_success_hands_over_buffer
           [[Spawn (CallRecordBookmarkChange (One bookmark_b) false)];
            [Resume 0]; [Resume 0]; [Resume 0]]
           (mkWorld false
              {[ url bookmark_a := mkChange 5 (convertToServerFormat bookmark_a) ]}
              (storage synced_world) true wall_clock 0 [])
           []).
  - reflexivity.
  - reflexivity.
Defined.

Lemma run_syncAllLocalBookmarks_offline w :
  isSyncing w = false →
  onLine w = false →
  run SyncManager.syncAllLocalBookmarks w
  = (Throw NetworkUnavailable,
     set_isSyncing false
       (add_log (ErrorSyncAll NetworkUnavailable)
          (set_isSyncing true (add_log InfoSyncAll w)))).
Proof.
  intros Hs Ho.
  pose proof (syncAllLocalBookmarks_offline [] w [] Hs Ho) as H.
  by apply run_of_run_with in H.
Qed.

(** X5: the full sync writes nothing but the version.  Entered with no
    pass active, [syncAllLocalBookmarks] succeeds exactly when the network
    is reachable at entry, whatever mutations are recorded meanwhile; it
    ends with [isSyncing] false and the bookmarks untouched, and only a
    successful pass replaces the persisted SyncVersion, by a reading of
    the clock.  Run alone, it also leaves the durable PendingChangeSet and
    [tempQueue] as they were. *)
Theorem syncAllLocalBookmarks_writes_only_version sched w pool :
  isSyncing w = false →
  (mutation_schedule sched →
   recording_pool pool →
   ∃ o w' pool' sched',
     run_with sched SyncManager.syncAllLocalBookmarks (w, pool)
       = (o, (w', pool'), sched')
     ∧ pass_exit w o w')
  ∧ (let r := run SyncManager.syncAllLocalBookmarks w in
     r.1 = (if onLine w
            then Return (mkSyncResult (readings w (reads w)) "success")
            else Throw NetworkUnavailable)
     ∧ isSyncing r.2 = false
     ∧ st_pendingChanges (storage r.2) = st_pendingChanges (storage w)
     ∧ st_bookmarks (storage r.2) = st_bookmarks (storage w)
     ∧ tempQueue r.2 = tempQueue w
     ∧ st_lastSyncVersion (storage r.2) =
         (if onLine w then Some (readings w (S (reads w)))
          else st_lastSyncVersion (storage w))).
Proof.
  intros Hs. split.
  - intros Hsched Hpool.
    destruct (holds_after_sound _ _ sched w pool Hsched Hpool
                (syncAllLocalBookmarks_holds w Hs))
      as (o & w' & pool' & sched' & Hrun & Hexit & _ & _).
    by exists o, w', pool', sched'.
  - cbv zeta. destruct (onLine w) eqn:Ho.
    + by rewrite run_syncAllLocalBookmarks_online.
    + by rewrite run_syncAllLocalBookmarks_offline.
Qed.

Lemma syncAllLocalBookmarks_writes_only_version_witness :
  let sched := [[Spawn (CallRecordBookmarkChange (One bookmark_b) false)];
                [Resume 0]; [Resume 0]; [Resume 0]] in
  let w := synced_world in
  let pool : list (Async unit) := [] in
  isSyncing w = false
  ∧ (mutation_schedule sched →
     recording_pool pool →
     ∃ o w' pool' sched',
       run_with sched SyncManager.syncAllLocalBookmarks (w, pool)
         = (o, (w', pool'), sched')
       ∧ pass_exit w o w')
  ∧ (let r := run SyncManager.syncAllLocalBookmarks w in
     r.1 = (if onLine w
            then Return (mkSyncResult (readings w (reads w)) "success")
            else Throw NetworkUnavailable)
     ∧ isSyncing r.2 = false
     ∧ st_pendingChanges (storage r.2) = st_pendingChanges (storage w)
     ∧ st_bookmarks (storage r.2) = st_bookmarks (storage w)
     ∧ tempQueue r.2 = tempQueue w
     ∧ st_lastSyncVersion (storage r.2) =
         (if onLine w then Some (readings w (S (reads w)))
          else st_lastSyncVersion (storage w))).
Proof.
  split; [reflexivity|].
  apply (syncAllLocalBookmarks_writes_only_version
           [[Spawn (CallRecordBookmarkChange (One bookmark_b) false)];
            [Resume 0]; [Resume 0]; [Resume 0]]
           synced_world []).
  reflexivity.
Defined.

(** X8: [cleanup] is a full reset of the sync state but not of the
    version.  From any world, a stuck flag and a filled buffer included,
    it returns normally with [isSyncing] false, [tempQueue] empty and the
    durable PendingChangeSet empty; the persisted SyncVersion and the
    bookmarks are what they were; and a [startSync] that follows is not
    refused with AlreadySyncing, whatever mutations are recorded while it
    runs. *)
Theorem cleanup_resets_state_not_version sched w pool :
  let r := run SyncManager.cleanup w in
  r.1 = Return tt
  ∧ isSyncing r.2 = false
  ∧ tempQueue r.2 = ∅
  ∧ pendingChanges r.2 = ∅
  ∧ st_lastSyncVersion (storage r.2) = st_lastSyncVersion (storage w)
  ∧ st_bookmarks (storage r.2) = st_bookmarks (storage w)
  ∧ (run SyncManager.startSync r.2).1 ≠ Throw AlreadySyncing
  ∧ (mutation_schedule sched →
     recording_pool pool →
     (run_with sched SyncManager.startSync (r.2, pool)).1.1
     ≠ Throw AlreadySyncing).
Proof.
  cbv zeta.
  assert (isSyncing (run SyncManager.cleanup w).2 = false) as Hs by by destruct w.
  assert (∀ sched pool, mutation_schedule sched → recording_pool pool →
            (run_with sched SyncManager.startSync
               ((run SyncManager.cleanup w).2, pool)).1.1
            ≠ Throw AlreadySyncing) as Hstart.
  { intros sched0 pool0 Hsched Hpool.
    destruct (holds_after_sound _ _ sched0 _ pool0 Hsched Hpool
                (startSync_holds _ Hs))
      as (o & w' & pool' & sched' & Hrun & Hexit & _ & _).
    rewrite Hrun. simpl. destruct Hexit as (_ & _ & _ & _ & Hout).
    destruct (onLine _).
    - by destruct Hout as (v & v' & -> & _).
    - by destruct Hout as [-> _]. }
  split; [by destruct w|]. split; [done|]. split; [by destruct w|].
  split; [by destruct w|]. split; [by destruct w|]. split; [by destruct w|].
  split; [|apply Hstart].
  specialize (Hstart [] [] ltac:(constructor) ltac:(constructor)).
  by rewrite run_with_nil in Hstart.
Qed.

Lemma cleanup_resets_state_not_version_witness :
  let sched := [[Spawn (CallRecordBookmarkChange (One bookmark_b) false)];
                [Resume 0]; [Resume 0]; [Resume 0]] in
  let w := mkWorld true
             {[ url bookmark_a := mkChange 5 (convertToServerFormat bookmark_a) ]}
             (storage synced_world) true wall_clock 0 [] in
  let pool : list (Async unit) := [] in
  let r := run SyncManager.cleanup w in
  r.1 = Return tt
  ∧ isSyncing r.2 = false
  ∧ tempQueue r.2 = ∅
  ∧ pendingChanges r.2 = ∅
  ∧ st_lastSyncVersion (storage r.2) = st_lastSyncVersion (storage w)
  ∧ st_bookmarks (storage r.2) = st_bookmarks (storage w)
  ∧ (run SyncManager.startSync r.2).1 ≠ Throw AlreadySyncing
  ∧ (mutation_schedule sched →
     recording_pool pool →
     (run_with sched SyncManager.startSync (r.2, pool)).1.1
     ≠ Throw AlreadySyncing).
Proof.
  exact (cleanup_resets_state_not_version
           [[Spawn (CallRecordBookmarkChange (One bookmark_b) false)];
            [Resume 0]; [Resume 0]; [Resume 0]]
           (mkWorld true
              {[ url bookmark_a := mkChange 5 (convertToServerFormat bookmark_a) ]}
              (storage synced_world) true wall_clock 0 [])
           []).
Defined.

(** X9: [resetSyncCache] makes the client a never-synced one again.  It
    returns normally and removes only the persisted SyncVersion, which
    then reads 0; the flag, the buffer, the durable PendingChangeSet and
    the bookmarks are what they were.  The next [startSync] is the full
    sync, and until then [recordBookmarkChange] records nothing. *)
Theorem resetSyncCache_forgets_version bookmarks isDeleted w :
  let r := run SyncManager.resetSyncCache w in
  let r' := run (SyncManager.recordBookmarkChange bookmarks isDeleted) r.2 in
  r.1 = Return tt
  ∧ syncVersion r.2 = 0%Z
  ∧ isSyncing r.2 = isSyncing w
  ∧ tempQueue r.2 = tempQueue w
  ∧ st_pendingChanges (storage r.2) = st_pendingChanges (storage w)
  ∧ st_bookmarks (storage r.2) = st_bookmarks (storage w)
  ∧ run SyncManager.startSync r.2 = run SyncManager.syncAllLocalBookmarks r.2
  ∧ tempQueue r'.2 = tempQueue w
  ∧ storage r'.2 = storage r.2.
Proof.
  cbv zeta.
  assert (syncVersion (run SyncManager.resetSyncCache w).2 = 0%Z) as Hv
    by by destruct w.
  split; [by destruct w|]. split; [done|]. split; [by destruct w|].
  split; [by destruct w|]. split; [by destruct w|]. split; [by destruct w|].
  split.
  - rewrite run_startSync. by rewrite decide_True.
  - rewrite run_recordBookmarkChange, Hv, decide_False by (intros H; by apply H).
    by destruct w.
Qed.

(** X13: the first sync switches recording on.  On a never-synced client
    [recordBookmarkChange] leaves the durable PendingChangeSet as it is.
    After a first [startSync] that succeeded (no pass active, network
    reachable, clock never reading 0) the same call assigns the change to
    the bookmark's URL in the durable set, where it is stored unless that
    URL is ["__proto__"], and the next [startSync] is the incremental
    sync. *)
Theorem first_sync_switches_recording_on b isDeleted w :
  syncVersion w = 0%Z →
  isSyncing w = false →
  onLine w = true →
  (∀ n, readings w n ≠ 0%Z) →
  let w1 := (run SyncManager.startSync w).2 in
  let c := mkChange (readings w (S (S (reads w)))) (convertToServerFormat b) in
  let w2 := (run (SyncManager.recordBookmarkChange (One b) isDeleted) w1).2 in
  pendingChanges (run (SyncManager.recordBookmarkChange (One b) isDeleted) w).2
    = pendingChanges w
  ∧ pendingChanges w2 = obj_set (url b) c (pendingChanges w)
  ∧ (storable (pendingChanges w) (url b) →
     pendingChanges w2 !! url b = Some c)
  ∧ (¬ storable (pendingChanges w) (url b) →
     pendingChanges w2 = pendingChanges w)
  ∧ run SyncManager.startSync w1 = run SyncManager.syncChange w1.
Proof.
  intros Hv Hs Ho Hclock w1 c w2.
  assert (w1 = mkWorld false (tempQueue w)
                 (mkStorage (Some (readings w (S (reads w))))
                    (st_pendingChanges (storage w)) (st_bookmarks (storage w)))
                 true (readings w) (S (S (reads w)))
                 (log w ++ [InfoSyncAll;
                            InfoSyncAllStart (size (st_bookmarks (storage w)));
                            InfoSyncAllDone])) as Hw1.
  { subst w1. rewrite run_startSync, decide_True by done.
    by rewrite run_syncAllLocalBookmarks_online. }
  assert (syncVersion w1 = readings w (S (reads w))) as Hv1.
  { rewrite Hw1. unfold syncVersion. simpl.
    by rewrite decide_False by apply Hclock. }
  assert (pendingChanges w2 = obj_set (url b) c (pendingChanges w)) as Hp2.
  { subst w2. rewrite run_recordBookmarkChange, decide_True
      by (rewrite Hv1; apply Hclock).
    rewrite addChange_idle by (by rewrite ?Hw1).
    rewrite Hw1. unfold pendingChanges. simpl.
    by destruct (st_pendingChanges (storage w)). }
  split; [|split; [done|split; [|split]]].
  - rewrite run_recordBookmarkChange, Hv, decide_False by (intros H; by apply H).
    done.
  - intros Hst. rewrite Hp2. unfold obj_set.
    rewrite decide_False; [apply lookup_insert_eq|].
    intros [Hu Hn]. destruct Hst as [?|[? Hsome]]; [done|].
    by rewrite Hn in Hsome.
  - intros Hst. rewrite Hp2. unfold obj_set.
    rewrite decide_True; [done|]. split.
    + destruct (decide (url b = "__proto__")) as [Hu|Hu]; [done|].
      exfalso. apply Hst. by left.
    + apply eq_None_not_Some. intros Hsome. apply Hst. by right.
  - rewrite run_startSync. rewrite decide_False; [done|].
    rewrite Hv1. apply Hclock.
Qed.

Lemma first_sync_switches_recording_on_witness :
  let w := fresh_world in
  let b := bookmark_a in
  let w1 := (run SyncManager.startSync w).2 in
  let c := mkChange (readings w (S (S (reads w)))) (convertToServerFormat b) in
  let w2 := (run (SyncManager.recordBookmarkChange (One b) true) w1).2 in
  syncVersion w = 0%Z
  ∧ isSyncing w = false
  ∧ onLine w = true
  ∧ (∀ n, readings w n ≠ 0%Z)
  ∧ storable (pendingChanges w) (url b)
  ∧ pendingChanges (run (SyncManager.recordBookmarkChange (One b) true) w).2
    = pendingChanges w
  ∧ pendingChanges w2 = obj_set (url b) c (pendingChanges w)
  ∧ (storable (pendingChanges w) (url b) →
     pendingChanges w2 !! url b = Some c)
  ∧ (¬ storable (pendingChanges w) (url b) →
     pendingChanges w2 = pendingChanges w)
  ∧ run SyncManager.startSync w1 = run SyncManager.syncChange w1.
Proof.
  split; [reflexivity|]. split; [reflexivity|]. split; [reflexivity|].
  split; [exact wall_clock_nonzero|]. split; [by left|].
  apply (first_sync_switches_recording_on bookmark_a true fresh_world).
  - reflexivity.
  - reflexivity.
  - reflexivity.
  - exact wall_clock_nonzero.
Defined.

(** ** The flush and the changes buffered while it writes *)

(** A computation that [run_with] executes without consuming a batch has
    no suspension point: [advance] runs it to its end. *)
Lemma advance_of_run_with {A} (m : Async A) w pool o s' :
  run_with [[]] m (w, pool) = (o, s', [[]]) →
  advance m w = (Settle o, s'.1).
Proof.
  revert w. induction m as [o'|X act k IH|k IH]; intros w; simpl.
  - by intros [= -> <-].
  - destruct (act w) as [x w']. apply IH.
  - unfold perform_all. simpl. rewrite run_with_nil. by intros [= _ _].
Qed.

(** A call of [addChange] made during a pass runs to its end at once. *)
Lemma spawn_addChange_syncing bookmarks isDeleted w pool :
  isSyncing w = true →
  perform (Spawn (CallAddChange bookmarks isDeleted)) (w, pool)
  = ((run (LocalChangeManager.addChange bookmarks isDeleted) w).2,
     pool ++ [Settle (Return tt)]).
Proof.
  intros Hs. unfold perform. simpl.
  destruct (decide (to_array bookmarks = [])) as [E|E].
  - rewrite (advance_of_run_with _ _ _ _ _
               (addChange_empty [[]] _ isDeleted (w, []) E)).
    by rewrite (run_of_run_with _ _ [] _ _ _
                  (addChange_empty [] _ isDeleted (w, []) E)).
  - rewrite (advance_of_run_with _ _ _ _ _
               (addChange_syncing [[]] _ isDeleted w [] Hs E)).
    by rewrite (run_of_run_with _ _ [] _ _ _
                  (addChange_syncing [] _ isDeleted w [] Hs E)).
Qed.

(** X14: the flush writes the buffer it finds and empties the buffer after
    the write.  In the [finally] block of [syncChange], with a non-empty
    [tempQueue], a call of [addChange] made while the write to the store
    is pending is buffered, the flag being still set; when the write has
    completed [tempQueue.clear()] empties the buffer.  The durable
    PendingChangeSet ends as the buffer was before the write (less a
    ["__proto__"] key) and [tempQueue] ends empty: a change buffered
    during the write under a new URL is in neither map afterwards. *)
Theorem flush_discards_changes_buffered_during_write bookmarks isDeleted w pool :
  isSyncing w = true →
  tempQueue w ≠ ∅ →
  let sched := [[Spawn (CallAddChange bookmarks isDeleted)]] in
  let writing :=
    (LocalStorageMgr_set_pendingChanges (delete "__proto__" (tempQueue w))
       (add_log (InfoMergeQueue (size (tempQueue w))) w)).2 in
  let during := perform_all (next_batch sched) (writing, pool) in
  let r := run_with sched SyncManager.syncChange_finally (w, pool) in
  r.1.1 = Return tt
  ∧ tempQueue during.1 =
      set_entries (tempQueue w)
        (changeEntries (readings w) (reads w) (as_sequence bookmarks))
  ∧ pendingChanges during.1 = delete "__proto__" (tempQueue w)
  ∧ isSyncing r.1.2.1 = false
  ∧ tempQueue r.1.2.1 = ∅
  ∧ pendingChanges r.1.2.1 = delete "__proto__" (tempQueue w)
  ∧ ∀ b, b ∈ as_sequence bookmarks →
      url b ∉ dom (tempQueue w) →
      is_Some (tempQueue during.1 !! url b)
      ∧ tempQueue r.1.2.1 !! url b = None
      ∧ pendingChanges r.1.2.1 !! url b = None.
Proof.
  intros Hs Hq sched writing during r.
  assert (isSyncing writing = true) as Hsw by done.
  assert (during = ((run (LocalChangeManager.addChange bookmarks isDeleted)
                         writing).2,
                    pool ++ [Settle (Return tt)])) as Hduring.
  { subst during sched. unfold perform_all. simpl.
    by apply spawn_addChange_syncing. }
  destruct (addChange_effect bookmarks isDeleted writing)
    as (_ & Hq' & Hp' & _).
  rewrite Hsw, to_array_as_sequence in Hq'. rewrite Hsw in Hp'.
  change (tempQueue writing) with (tempQueue w) in Hq'.
  change (readings writing) with (readings w) in Hq'.
  change (reads writing) with (reads w) in Hq'.
  change (pendingChanges writing) with (delete "__proto__" (tempQueue w)) in Hp'.
  assert (r = (Return tt,
               (set_isSyncing false (set_tempQueue ∅ during.1), during.2), []))
    as Hr.
  { subst r. rewrite run_with_syncChange_finally, decide_False by done.
    cbv zeta. fold writing. by fold during. }
  rewrite Hr, Hduring. simpl fst. simpl snd.
  split; [done|]. split; [exact Hq'|]. split; [exact Hp'|].
  split; [done|]. split; [done|].
  assert (pendingChanges
            (set_isSyncing false
               (set_tempQueue ∅
                  (run (LocalChangeManager.addChange bookmarks isDeleted)
                       writing).2))
          = delete "__proto__" (tempQueue w)) as Hp by exact Hp'.
  split; [exact Hp|]. intros b Hb Hk. split; [|split].
  - rewrite Hq', set_entries_lookup.
    assert (url b ∈ (changeEntries (readings w) (reads w)
                       (as_sequence bookmarks)).*1) as Hin.
    { rewrite changeEntries_keys. by apply list_elem_of_fmap_2. }
    destruct (last_entry_is_Some _ _ Hin) as [c ->]. by eexists.
  - apply lookup_empty.
  - rewrite Hp. apply not_elem_of_dom in Hk.
    destruct (decide (url b = "__proto__")) as [->|Hu].
    + apply lookup_delete_eq.
    + by rewrite lookup_delete_ne.
Qed.

Lemma flush_discards_changes_buffered_during_write_witness :
  let w := mkWorld true
             {[ url bookmark_a := mkChange 5 (convertToServerFormat bookmark_a) ]}
             (storage synced_world) true wall_clock 0 [] in
  let bookmarks := One bookmark_b in
  let pool : list (Async unit) := [] in
  let sched := [[Spawn (CallAddChange bookmarks false)]] in
  let writing :=
    (LocalStorageMgr_set_pendingChanges (delete "__proto__" (tempQueue w))
       (add_log (InfoMergeQueue (size (tempQueue w))) w)).2 in
  let during := perform_all (next_batch sched) (writing, pool) in
  let r := run_with sched SyncManager.syncChange_finally (w, pool) in
  isSyncing w = true
  ∧ tempQueue w ≠ ∅
  ∧ r.1.1 = Return tt
  ∧ tempQueue during.1 =
      set_entries (tempQueue w)
        (changeEntries (readings w) (reads w) (as_sequence bookmarks))
  ∧ pendingChanges during.1 = delete "__proto__" (tempQueue w)
  ∧ isSyncing r.1.2.1 = false
  ∧ tempQueue r.1.2.1 = ∅
  ∧ pendingChanges r.1.2.1 = delete "__proto__" (tempQueue w)
  ∧ ∀ b, b ∈ as_sequence bookmarks →
      url b ∉ dom (tempQueue w) →
      is_Some (tempQueue during.1 !! url b)
      ∧ tempQueue r.1.2.1 !! url b = None
      ∧ pendingChanges r.1.2.1 !! url b = None.
Proof.
  assert ({[ url bookmark_a := mkChange 5 (convertToServerFormat bookmark_a) ]}
          ≠ (∅ : gmap string ChangeRecord)) as Hq
    by apply insert_non_empty.
  split; [reflexivity|]. split; [exact Hq|].
  exact (flush_discards_changes_buffered_during_write (One bookmark_b) false
           (mkWorld true
              {[ url bookmark_a := mkChange 5 (convertToServerFormat bookmark_a) ]}
              (storage synced_world) true wall_clock 0 [])
           [] eq_refl Hq).
Defined.

(** ** Batches and sequences *)

(** X15: one call of [addChange] with an array does to the two maps what
    two calls with the two parts of the array do, one after the other:
    the same [tempQueue], the same durable PendingChangeSet, the same
    number of clock readings, the same flag. *)
Theorem addChange_batch_is_sequence l1 l2 isDeleted w :
  let wa := (run (LocalChangeManager.addChange (Many (l1 ++ l2)) isDeleted) w).2 in
  let wb := (run (LocalChangeManager.addChange (Many l1) isDeleted;;
                  LocalChangeManager.addChange (Many l2) isDeleted) w).2 in
  tempQueue wa = tempQueue wb
  ∧ pendingChanges wa = pendingChanges wb
  ∧ reads wa = reads wb
  ∧ isSyncing wa = isSyncing wb.
Proof.
  cbv zeta. rewrite run_bind.
  destruct (addChange_effect (Many l1) isDeleted w)
    as (Ho & Hq1 & Hp1 & Hn1 & Hs1 & Hr1 & _).
  destruct (run (LocalChangeManager.addChange (Many l1) isDeleted) w)
    as [o w1]. simpl in Ho, Hq1, Hp1, Hn1, Hs1, Hr1. subst o.
  destruct (addChange_effect (Many l2) isDeleted w1)
    as (_ & Hq2 & Hp2 & Hn2 & Hs2 & _).
  destruct (addChange_effect (Many (l1 ++ l2)) isDeleted w)
    as (_ & Hq & Hp & Hn & Hs & _).
  simpl to_array in *.
  rewrite Hq, Hp, Hn, Hs, Hq2, Hp2, Hn2, Hs2, Hs1, Hq1, Hp1, Hn1, Hr1.
  rewrite changeEntries_app, length_app.
  destruct (isSyncing w); rewrite ?assign_entries_app, ?set_entries_app;
    repeat split; try done; lia.
Qed.
